(** * piwarmer: the program detail page

    A shallow embedding of [frontend/program/manage/manage_program.js]: the
    [display_step] formatter, the handler run at document-ready with its two
    nested request callbacks, and the delegated click handler of the delete
    control.

    Conventions.
    - A JavaScript string is a sequence of 16-bit code units.  The model
      writes one [ascii] per code unit and so covers the strings whose code
      units are all below 256; [String.le] is then exactly the code-unit
      order used by [Array.prototype.sort] without a comparator.
    - Numbers are kept abstract (class [Numeric]): the script never computes
      with them, it only prints them.
    - A conversion to string throws a TypeError on an object that has a
      property named [toString], as [JSON.parse] can produce one; so do the
      comparisons and concatenations that convert such a value.
    - [JSON.parse], the repository helper [get_id] (not part of this file)
      and what jQuery makes of an array or object given as content are
      parameters of the page (class [Host]).  Module [Reference] gives a
      concrete runtime on which the examples are evaluated.
    - The page records what the script hands to [.html(...)]; what a browser
      shows for such markup is given by [read_text] and [read_rows]. *)

From stdpp Require Import gmap strings list fin_maps sorting.
From Stdlib Require Import Ascii String DecimalString.

Set Warnings "-register-all".

(** ** Values *)

(** What the script needs from the Number type: printing ([Number::toString],
    radix 10). *)
Class Numeric := {
  number : Type;
  number_to_string : number -> string
}.

(** The values a parsed response can hold, plus [undefined] (the result of
    reading an absent property and of a function that ends without
    [return]).  An object is a finite map from property names to values. *)
Inductive value `{Numeric} : Type :=
| VUndefined
| VNull
| VBool (b : bool)
| VNum (n : number)
| VStr (s : string)
| VArr (l : list value)
| VObj (m : gmap string value).

(** Exceptions the script can raise; none is caught anywhere in the file. *)
Inductive error := TypeError | SyntaxError | ReferenceError.

(** The outcome of evaluating an expression or running a statement list. *)
Inductive completion (A : Type) : Type :=
| Normal (a : A)
| Throw (e : error).
Arguments Normal {A} a.
Arguments Throw {A} e.

#[global] Instance completion_ret : MRet completion := fun A a => Normal a.

#[global] Instance completion_bind : MBind completion := fun A B k c =>
  match c with
  | Normal a => k a
  | Throw e => Throw e
  end.

(** ** Conversions *)

(** [ToString]: the string a value contributes to a concatenation
    ['literal' + v], and what [ToPrimitive] makes of an array or an object,
    whatever the hint.

    An object is converted by the first of its [toString] and [valueOf]
    methods that is callable and returns a primitive.  The values here come
    out of [JSON.parse], so an own property is never callable and the
    inherited [valueOf] returns the object itself: an object without an own
    property named [toString] prints as the fixed tag of
    [Object.prototype.toString], and one with such a property cannot be
    converted, which is a TypeError.

    An array prints through [Array.prototype.join]: its elements joined by
    commas, [null] and [undefined] elements printed as nothing, every other
    element converted in turn, so that an element that cannot be converted
    makes the whole conversion throw. *)
Fixpoint to_string `{Numeric} (v : value) : completion string :=
  match v with
  | VUndefined => Normal "undefined"
  | VNull => Normal "null"
  | VBool true => Normal "true"
  | VBool false => Normal "false"
  | VNum n => Normal (number_to_string n)
  | VStr s => Normal s
  | VArr l =>
      parts ← (fix elements (l : list value) : completion (list string) :=
                 match l with
                 | [] => Normal []
                 | x :: l' =>
                     part ← match x with
                            | VUndefined | VNull => Normal ""
                            | _ => to_string x
                            end;
                     rest ← elements l';
                     Normal (part :: rest)
                 end) l;
      Normal (String.concat "," parts)
  | VObj m =>
      match m !! "toString" with
      | Some _ => Throw TypeError
      | None => Normal "[object Object]"
      end
  end.

(** [v == w] for a string literal [w] that is not a numeric literal, which
    is the case for the four mode words compared in [display_step] (their
    [ToNumber] is NaN).  A string compares by content; an array or object is
    first converted to a primitive, i.e. to its [ToString], which may throw;
    a number or a boolean is compared numerically against NaN and is never
    equal; [null] and [undefined] equal only each other. *)
Definition loose_eq_str `{Numeric} (v : value) (w : string)
  : completion bool :=
  match v with
  | VStr s => Normal (String.eqb s w)
  | VArr _ | VObj _ => s ← to_string v; Normal (String.eqb s w)
  | VNum _ | VBool _ => Normal false
  | VUndefined | VNull => Normal false
  end.

(** ** Property reads and enumeration *)

(** The name of array index [i]. *)
Definition index_key (i : nat) : string :=
  NilZero.string_of_uint (Nat.to_uint i).

(** Own enumerable properties, as [for (k in v)] visits them.  For an object
    the visiting order is left to the map: the script sorts the keys before
    using them. *)
Definition own_enumerable `{Numeric} (v : value) : list (string * value) :=
  match v with
  | VObj m => map_to_list m
  | VArr l => imap (fun i x => (index_key i, x)) l
  | VStr s =>
      imap (fun i c => (index_key i, VStr (String c EmptyString)))
           (list_ascii_of_string s)
  | _ => []
  end.

Fixpoint assoc `{Numeric} (k : string) (l : list (string * value)) : option value :=
  match l with
  | [] => None
  | (k', v) :: l' => if String.eqb k k' then Some v else assoc k l'
  end.

(** [v[k]].  Reading from [null] or [undefined] throws.  Every key the
    script reads is either one of its literal field names, none of which
    exists on a built-in prototype, or a key that [for..in] has just
    produced, so the read is a lookup among own enumerable properties and
    yields [undefined] when there is none. *)
Definition get `{Numeric} (v : value) (k : string) : completion value :=
  match v with
  | VUndefined | VNull => Throw TypeError
  | VObj m => Normal (default VUndefined (m !! k))
  | _ => Normal (default VUndefined (assoc k (own_enumerable v)))
  end.

(** ** display_step *)

(** Each test reads [data['mode']] and compares it; each operand of a
    concatenation is read and converted before the next one is read. *)
Definition display_step `{Numeric} (data : value) : completion value :=
  mode ← get data "mode";
  is_set ← loose_eq_str mode "set";
  if is_set : bool then
    temperature ← get data "temperature";
    t ← to_string temperature;
    duration ← get data "duration";
    d ← to_string duration;
    Normal (VStr ("Set to " +:+ t +:+ "&deg;C for " +:+ d +:+ " seconds"))
  else
  mode ← get data "mode";
  is_linear ← loose_eq_str mode "linear";
  if is_linear : bool then
    start_temperature ← get data "start_temperature";
    s ← to_string start_temperature;
    end_temperature ← get data "end_temperature";
    e ← to_string end_temperature;
    duration ← get data "duration";
    d ← to_string duration;
    Normal (VStr ("Ramp from " +:+ s +:+ "&deg;C to " +:+ e
                  +:+ "&deg;C over " +:+ d +:+ " seconds."))
  else
  mode ← get data "mode";
  is_hold ← loose_eq_str mode "hold";
  if is_hold : bool then
    temperature ← get data "temperature";
    t ← to_string temperature;
    Normal (VStr ("Hold at " +:+ t +:+ "&deg;C"))
  else
  mode ← get data "mode";
  is_repeat ← loose_eq_str mode "repeat";
  if is_repeat : bool then
    num_repeats ← get data "num_repeats";
    n ← to_string num_repeats;
    Normal (VStr ("Repeat " +:+ n +:+ " times"))
  else
    Normal VUndefined.

(** ** The page *)

(** What the page takes from its surroundings.
    - The built-in [JSON.parse] applied to a string; [None] when it throws
      a SyntaxError.
    - The URL parameter reader [get_id], a helper of the repository defined
      outside this file.  Modelled from the spec (section 6):
      [get_id(paramName)] returns the string value of a named query
      parameter from the current page URL.
    - Whether jQuery can insert a given array or object as the content of
      an element: it takes such a value for a collection of markup and
      nodes, and the insertion throws a TypeError when the collection
      holds something that is neither. *)
Class Host `{Numeric} := {
  JSON_parse : string -> option value;
  get_id : string -> string;
  insertable : value -> bool
}.

(** The three functions passed to [http] as success callbacks.  They close
    over nothing but global variables, so a tag identifies each. *)
Inductive callback := on_program | on_driver | on_delete.

(** A call [http(path, method, null, on_success)].  [pending] is cleared
    when the helper invokes the callback, which it does at most once. *)
Record request := Request {
  path : string;
  method : string;
  on_success : callback;
  pending : bool
}.

(** The page state the script reads or writes.
    - [program_id], [scientist], [step_data], [step_keys], [steps]: the
      implicit globals, [None] until first assigned;
    - [document]: for each selector, the value the script last gave the
      element as its new content, by [.html(v)] with [v] other than
      [undefined]; a selector is absent until the script writes to it.  A
      string is given as markup, which the browser parses: what the element
      then shows is [read_text] or [read_rows] of that string.  A number
      or [true] is shown as its text; [null] and [false] leave the element
      empty;
    - [href]: the last value assigned to [window.location.href];
    - [requests]: the [http] calls in the order issued;
    - [url_reads]: the arguments of the [get_id] calls in the order made;
    - [delete_bound]: whether the click handler has been attached. *)
Record page `{Numeric} := Page {
  program_id : option value;
  scientist : option value;
  step_data : option value;
  step_keys : option (list string);
  steps : option string;
  document : gmap string value;
  href : option string;
  requests : list request;
  url_reads : list string;
  delete_bound : bool
}.
Arguments Page {_} _ _ _ _ _ _ _ _ _ _.

Definition blank `{Numeric} : page :=
  Page None None None None None ∅ None [] [] false.

Section setters.
Context `{Numeric}.

Definition set_program_id (v : value) (st : page) : page :=
  Page (Some v) (scientist st) (step_data st) (step_keys st) (steps st)
       (document st) (href st) (requests st) (url_reads st) (delete_bound st).

Definition set_scientist (v : value) (st : page) : page :=
  Page (program_id st) (Some v) (step_data st) (step_keys st) (steps st)
       (document st) (href st) (requests st) (url_reads st) (delete_bound st).

Definition set_step_data (v : value) (st : page) : page :=
  Page (program_id st) (scientist st) (Some v) (step_keys st) (steps st)
       (document st) (href st) (requests st) (url_reads st) (delete_bound st).

Definition set_step_keys (ks : list string) (st : page) : page :=
  Page (program_id st) (scientist st) (step_data st) (Some ks) (steps st)
       (document st) (href st) (requests st) (url_reads st) (delete_bound st).

Definition set_steps (s : string) (st : page) : page :=
  Page (program_id st) (scientist st) (step_data st) (step_keys st) (Some s)
       (document st) (href st) (requests st) (url_reads st) (delete_bound st).

Definition set_document (d : gmap string value) (st : page) : page :=
  Page (program_id st) (scientist st) (step_data st) (step_keys st) (steps st)
       d (href st) (requests st) (url_reads st) (delete_bound st).

Definition set_href (u : string) (st : page) : page :=
  Page (program_id st) (scientist st) (step_data st) (step_keys st) (steps st)
       (document st) (Some u) (requests st) (url_reads st) (delete_bound st).

Definition set_requests (rs : list request) (st : page) : page :=
  Page (program_id st) (scientist st) (step_data st) (step_keys st) (steps st)
       (document st) (href st) rs (url_reads st) (delete_bound st).

Definition set_url_reads (l : list string) (st : page) : page :=
  Page (program_id st) (scientist st) (step_data st) (step_keys st) (steps st)
       (document st) (href st) (requests st) l (delete_bound st).

Definition set_delete_bound (b : bool) (st : page) : page :=
  Page (program_id st) (scientist st) (step_data st) (step_keys st) (steps st)
       (document st) (href st) (requests st) (url_reads st) b.
End setters.

(** Statements: they transform the page and either finish or throw.  What a
    statement list wrote before it threw stays written. *)
Definition action `{Numeric} (A : Type) : Type := page -> page * completion A.

#[global] Instance action_ret `{Numeric} : MRet action :=
  fun A a st => (st, Normal a).

#[global] Instance action_bind `{Numeric} : MBind action := fun A B k c st =>
  match c st with
  | (st', Normal a) => k a st'
  | (st', Throw e) => (st', Throw e)
  end.

Section primitives.
Context `{Numeric}.

Definition lift {A} (c : completion A) : action A := fun st => (st, c).

Definition modify (f : page -> page) : action unit :=
  fun st => (f st, Normal tt).

(** Reading a global variable; a variable never assigned is not defined
    and reading it throws. *)
Definition global {A} (var : page -> option A) : action A := fun st =>
  (st, match var st with
       | Some a => Normal a
       | None => Throw ReferenceError
       end).

(** [http(path, method, null, on_success)] *)
Definition http (p m : string) (cb : callback) : action unit :=
  modify (fun st => set_requests (requests st ++ [Request p m cb true]) st).

(** Statements run in order for each element of a list. *)
Fixpoint for_each {A} (l : list A) (body : A -> action unit) : action unit :=
  match l with
  | [] => mret tt
  | x :: l' => _ ← body x; for_each l' body
  end.
End primitives.

(** [$(selector).html(v)].  jQuery takes a call whose argument is
    [undefined] for a read of the content and writes nothing; every other
    value replaces the content of the element.  For an array or an object
    the old content is removed first and the insertion may then throw. *)
Definition html `{Host} (selector : string) (v : value) : action unit :=
  match v with
  | VUndefined => mret tt
  | VArr _ | VObj _ =>
      _ ← modify (fun st => set_document (<[selector := v]> (document st)) st);
      if insertable v then mret tt else lift (Throw TypeError)
  | _ => modify (fun st => set_document (<[selector := v]> (document st)) st)
  end.

(** [Array.prototype.sort] without a comparator orders by [ToString], code
    unit by code unit, a proper prefix first: this is [String.le].  The
    elements sorted here are distinct strings, for which every sorting
    procedure returns the same array. *)
Definition sort (l : list string) : list string := merge_sort String.le l.

(** ** Handlers *)

Section handlers.
Context `{Host}.

(** One table row: the key, then the text of the step. *)
Definition row (key : string) (cell : string) : string :=
  "<tr><td>" +:+ key +:+ "</td><td>" +:+ cell +:+ "</td></tr>".

(** Success callback of [GET driver/...]. *)
Definition driver_success (driver_response : value) : action unit :=
  name ← lift (get driver_response "name");
  label ← lift (to_string name);
  html "#driver_name" (VStr ("Driver: " +:+ label)).

(** Success callback of [GET program/...]. *)
Definition program_success (response : value) : action unit :=
  who ← lift (get response "scientist");
  _ ← modify (set_scientist who);
  name ← lift (get response "name");
  _ ← html "#program_title" name;
  driver ← lift (get response "driver");
  driver_id ← lift (to_string driver);
  _ ← http ("driver/" +:+ driver_id) "GET" on_driver;
  listing ← lift (get response "steps");
  source ← lift (to_string listing);
  parsed ← lift (match JSON_parse source with
                 | Some v => Normal v
                 | None => Throw SyntaxError
                 end);
  _ ← modify (set_step_data parsed);
  _ ← modify (set_step_keys []);
  _ ← modify (set_steps "");
  data ← global step_data;
  _ ← for_each (own_enumerable data) (fun kv =>
        keys ← global step_keys;
        modify (set_step_keys (keys ++ [kv.1])));
  keys ← global step_keys;
  _ ← modify (set_step_keys (sort keys));
  keys ← global step_keys;
  _ ← for_each keys (fun key =>
        so_far ← global steps;
        data ← global step_data;
        step ← lift (get data key);
        shown ← lift (display_step step);
        cell ← lift (to_string shown);
        modify (set_steps (so_far +:+ row key cell)));
  markup ← global steps;
  html "#program_details" (VStr markup).

(** Success callback of [DELETE program/...]. *)
Definition delete_success (response : value) : action unit :=
  who ← global scientist;
  user ← lift (to_string who);
  modify (set_href ("/program?user=" +:+ user)).

(** The click handler of [#delete]; [confirmed] is the answer of
    [window.confirm]. *)
Definition delete_click (confirmed : bool) : action unit :=
  if confirmed then
    id ← global program_id;
    program ← lift (to_string id);
    http ("program/" +:+ program) "DELETE" on_delete
  else
    mret tt.

(** The handler passed to [$(document).ready]. *)
Definition ready : action unit :=
  _ ← modify (fun st => set_url_reads (url_reads st ++ ["id"]) st);
  _ ← modify (set_program_id (VStr (get_id "id")));
  id ← global program_id;
  program ← lift (to_string id);
  _ ← http ("program/" +:+ program) "GET" on_program;
  modify (set_delete_bound true).

(** ** Events *)

(** What can happen after the page is ready: the request helper reports
    the success of request number [i] with its parsed response, or the
    user clicks the delete control and answers the prompt. *)
Inductive event :=
| Success (i : nat) (response : value)
| Click (confirmed : bool).

Definition fire (cb : callback) (response : value) : action unit :=
  match cb with
  | on_program => program_success response
  | on_driver => driver_success response
  | on_delete => delete_success response
  end.

Definition settle (r : request) : request :=
  Request (path r) (method r) (on_success r) false.

(** One event.  A success is delivered only to a request that is still
    pending; a failed or unanswered request delivers nothing.  An
    exception leaving a handler ends that handler and nothing else. *)
Definition step (st : page) (e : event) : page :=
  match e with
  | Success i response =>
      match requests st !! i with
      | Some r =>
          if pending r then
            (fire (on_success r) response
                  (set_requests (alter settle i (requests st)) st)).1
          else st
      | None => st
      end
  | Click confirmed =>
      if delete_bound st then (delete_click confirmed st).1 else st
  end.

Definition loaded : page := (ready blank).1.

Definition run (events : list event) : page := foldl step loaded events.
End handlers.

(** ** A reference runtime

    A concrete [Numeric] and [Host] on which examples can be evaluated.

    A number is held as the decimal it was written with and printed by the
    rules of [Number::toString].  This agrees with binary64 arithmetic on
    every literal that a double carries digit for digit: at most 15
    significant digits, magnitude within the normal range.

    [parse] follows the JSON grammar on text whose code units, including
    those written as [\u] escapes, are below 256. *)
Module Reference.

(** [0.d1 d2 ... dk * 10^point], with [d1] and [dk] not zero; no digits at
    all for zero. *)
Record decimal := Decimal {
  negative : bool;
  digits : string;
  point : Z
}.

Fixpoint zeros (n : nat) : string :=
  match n with
  | O => ""
  | S n' => String "0" (zeros n')
  end.

Definition print_nat (n : nat) : string :=
  NilZero.string_of_uint (Nat.to_uint n).

Definition str_take (n : nat) (s : string) : string := String.substring 0 n s.

Definition str_drop (n : nat) (s : string) : string :=
  String.substring n (String.length s - n) s.

(** [Number::toString] in radix 10, with [k] digits and exponent [n]. *)
Definition print (d : decimal) : string :=
  let s := digits d in
  let k := Z.of_nat (String.length s) in
  let n := point d in
  match s with
  | EmptyString => "0"
  | String first rest =>
      (if negative d then "-" else "") +:+
      (if bool_decide (k ≤ n ≤ 21)%Z then
         s +:+ zeros (Z.to_nat (n - k))
       else if bool_decide (0 < n ≤ 21)%Z then
         str_take (Z.to_nat n) s +:+ "." +:+ str_drop (Z.to_nat n) s
       else if bool_decide (-6 < n ≤ 0)%Z then
         "0." +:+ zeros (Z.to_nat (- n)) +:+ s
       else
         String first (match rest with
                       | EmptyString => ""
                       | _ => "." +:+ rest
                       end)
         +:+ "e" +:+ (if bool_decide (0 ≤ n - 1)%Z then "+" else "-")
         +:+ print_nat (Z.abs_nat (n - 1)))
  end.

#[local] Instance numeric : Numeric :=
  {| number := decimal; number_to_string := print |}.

(** *** Reading a number literal *)

Definition is_digit (c : ascii) : bool :=
  bool_decide (48 ≤ nat_of_ascii c ≤ 57).

Definition digit_value (c : ascii) : Z := Z.of_nat (nat_of_ascii c) - 48.

(** The longest prefix of digits, and what follows it. *)
Fixpoint span_digits (s : string) : string * string :=
  match s with
  | String c r =>
      if is_digit c then
        let (ds, rest) := span_digits r in (String c ds, rest)
      else (EmptyString, s)
  | EmptyString => (EmptyString, EmptyString)
  end.

Fixpoint strip_leading (s : string) : string * nat :=
  match s with
  | String "0" r => let (t, n) := strip_leading r in (t, S n)
  | _ => (s, O)
  end.

Fixpoint strip_trailing (s : string) : string :=
  match s with
  | EmptyString => EmptyString
  | String c r =>
      match c, strip_trailing r with
      | "0"%char, EmptyString => EmptyString
      | _, t => String c t
      end
  end.

Definition digits_value (s : string) : Z :=
  foldl (fun acc c => acc * 10 + digit_value c)%Z 0%Z (list_ascii_of_string s).

(** The number written [-? int . frac e exponent]. *)
Definition number_of_literal (neg : bool) (int frac : string) (exponent : Z)
  : decimal :=
  let (significant, skipped) := strip_leading (int +:+ frac) in
  Decimal neg (strip_trailing significant)
          (Z.of_nat (String.length int) + exponent - Z.of_nat skipped).

Definition scan_fraction (s : string) : option (string * string) :=
  match s with
  | String "." r =>
      match span_digits r with
      | (EmptyString, _) => None
      | (ds, rest) => Some (ds, rest)
      end
  | _ => Some (EmptyString, s)
  end.

Definition scan_exponent (s : string) : option (Z * string) :=
  let digits_of (minus : bool) (r : string) :=
    match span_digits r with
    | (EmptyString, _) => None
    | (ds, rest) =>
        Some (if minus then (- digits_value ds)%Z else digits_value ds, rest)
    end in
  match s with
  | String c r =>
      if bool_decide (c = "e"%char ∨ c = "E"%char) then
        match r with
        | String "+" r' => digits_of false r'
        | String "-" r' => digits_of true r'
        | _ => digits_of false r
        end
      else Some (0%Z, s)
  | EmptyString => Some (0%Z, s)
  end.

Definition scan_number (s : string) : option (decimal * string) :=
  let (neg, s1) := match s with
                   | String "-" r => (true, r)
                   | _ => (false, s)
                   end in
  int_rest ← match s1 with
             | String "0" r => Some ("0", r)
             | String c _ =>
                 if is_digit c then Some (span_digits s1) else None
             | EmptyString => None
             end;
  frac_rest ← scan_fraction int_rest.2;
  exp_rest ← scan_exponent frac_rest.2;
  Some (number_of_literal neg int_rest.1 frac_rest.1 exp_rest.1, exp_rest.2).

(** *** Reading a string literal *)

Definition hex_value (c : ascii) : option N :=
  let n := N_of_ascii c in
  if bool_decide (48 ≤ n ≤ 57)%N then Some (n - 48)%N
  else if bool_decide (97 ≤ n ≤ 102)%N then Some (n - 87)%N
  else if bool_decide (65 ≤ n ≤ 70)%N then Some (n - 55)%N
  else None.

(** The code unit written [\uXXXX], when it is below 256. *)
Definition scan_unicode (s : string) : option (ascii * string) :=
  match s with
  | String a (String b (String c (String d rest))) =>
      ha ← hex_value a; hb ← hex_value b;
      hc ← hex_value c; hd ← hex_value d;
      if bool_decide (ha = 0 ∧ hb = 0)%N
      then Some (ascii_of_N (hc * 16 + hd), rest)
      else None
  | _ => None
  end.

(** The characters after an opening quote, up to the closing one. *)
Fixpoint scan_string (s : string) : option (string * string) :=
  match s with
  | EmptyString => None
  | String "034" rest => Some (EmptyString, rest)
  | String "\" (String e rest) =>
      let continue (c : ascii) (r : option (string * string)) :=
        '(t, rest') ← r; Some (String c t, rest') in
      match e with
      | "034"%char => continue "034"%char (scan_string rest)
      | "\"%char => continue "\"%char (scan_string rest)
      | "/"%char => continue "/"%char (scan_string rest)
      | "b"%char => continue "008"%char (scan_string rest)
      | "f"%char => continue "012"%char (scan_string rest)
      | "n"%char => continue "010"%char (scan_string rest)
      | "r"%char => continue "013"%char (scan_string rest)
      | "t"%char => continue "009"%char (scan_string rest)
      | "u"%char =>
          match rest with
          | String a (String b (String c (String d rest'))) =>
              '(u, _) ← scan_unicode rest;
              continue u (scan_string rest')
          | _ => None
          end
      | _ => None
      end
  | String c rest =>
      if bool_decide (nat_of_ascii c < 32) then None
      else '(t, rest') ← scan_string rest; Some (String c t, rest')
  end.

(** *** Values *)

Definition is_space (c : ascii) : bool :=
  bool_decide (c = " "%char ∨ c = "009"%char ∨ c = "010"%char ∨ c = "013"%char).

Fixpoint skip_space (s : string) : string :=
  match s with
  | String c r => if is_space c then skip_space r else s
  | EmptyString => s
  end.

Definition expect (word : string) (s : string) : option string :=
  if String.prefix word s
  then Some (str_drop (String.length word) s)
  else None.

(** Recursive descent; [fuel] bounds the nesting of calls, each of which
    is entered after at least one more character has been consumed. *)
Fixpoint parse_value (fuel : nat) (s : string) : option (value * string) :=
  match fuel with
  | O => None
  | S fuel' =>
      match skip_space s with
      | String "{" r =>
          match skip_space r with
          | String "}" r' => Some (VObj ∅, r')
          | _ => parse_members fuel' ∅ r
          end
      | String "[" r =>
          match skip_space r with
          | String "]" r' => Some (VArr [], r')
          | _ => parse_elements fuel' [] r
          end
      | String "034" r => '(t, r') ← scan_string r; Some (VStr t, r')
      | String "t" _ => r ← expect "true" (skip_space s); Some (VBool true, r)
      | String "f" _ => r ← expect "false" (skip_space s); Some (VBool false, r)
      | String "n" _ => r ← expect "null" (skip_space s); Some (VNull, r)
      | s' => '(d, r) ← scan_number s'; Some (VNum d, r)
      end
  end
with parse_members (fuel : nat) (acc : gmap string value) (s : string)
  : option (value * string) :=
  match fuel with
  | O => None
  | S fuel' =>
      match skip_space s with
      | String "034" r =>
          '(key, r1) ← scan_string r;
          match skip_space r1 with
          | String ":" r2 =>
              '(v, r3) ← parse_value fuel' r2;
              match skip_space r3 with
              | String "," r4 => parse_members fuel' (<[key := v]> acc) r4
              | String "}" r4 => Some (VObj (<[key := v]> acc), r4)
              | _ => None
              end
          | _ => None
          end
      | _ => None
      end
  end
with parse_elements (fuel : nat) (acc : list value) (s : string)
  : option (value * string) :=
  match fuel with
  | O => None
  | S fuel' =>
      '(v, r1) ← parse_value fuel' s;
      match skip_space r1 with
      | String "," r2 => parse_elements fuel' (acc ++ [v]) r2
      | String "]" r2 => Some (VArr (acc ++ [v]), r2)
      | _ => None
      end
  end.

(** [JSON.parse(text)]: one value, surrounded by nothing but white
    space. *)
Definition parse (text : string) : option value :=
  '(v, rest) ← parse_value (S (String.length text)) text;
  match skip_space rest with
  | EmptyString => Some v
  | _ => None
  end.

(** A value that is not an array or an object. *)
Definition primitive (v : value) : bool :=
  match v with
  | VArr _ | VObj _ => false
  | _ => true
  end.

(** The page opened at [...?id=<id>].  jQuery inserts an array of
    primitives element by element and finds nothing to insert in an
    object without [length] and [nodeType]; on other arrays and objects
    this runtime takes the insertion to throw, as jQuery does once it
    meets a value in the collection that is not a node. *)
Definition browser (id : string) : Host :=
  {| JSON_parse := parse;
     get_id := fun name => if String.eqb name "id" then id else "";
     insertable := fun v =>
       match v with
       | VArr l => forallb primitive l
       | VObj m =>
           bool_decide (m !! "length" = None ∧ m !! "nodeType" = None)
       | _ => true
       end |}.

End Reference.

(** ** Vocabulary of the statements *)

(** [data[k]] for an object [data] with property map [m]. *)
Definition field `{Numeric} (m : gmap string value) (k : string) : value :=
  default VUndefined (m !! k).

(** The value can be converted to a string. *)
Definition printable `{Numeric} (v : value) : bool :=
  match to_string v with
  | Normal _ => true
  | Throw _ => false
  end.

(** The string a printable value converts to. *)
Definition text `{Numeric} (v : value) : string :=
  match to_string v with
  | Normal s => s
  | Throw _ => ""
  end.

(** The four mode words [display_step] compares against. *)
Definition modes : list string := ["set"; "linear"; "hold"; "repeat"].

(** The value is one of the four mode words, or an array whose elements
    convert and, joined by commas, spell one. *)
Definition spells_mode_word `{Numeric} (v : value) : bool :=
  match v with
  | VStr _ | VArr _ => bool_decide (text v ∈ modes)
  | _ => false
  end.

(** The fields each mode carries, as the data model of the specification
    lists them. *)
Definition fields_of_mode (w : string) : list string :=
  if String.eqb w "set" then ["temperature"; "duration"]
  else if String.eqb w "linear" then
    ["start_temperature"; "end_temperature"; "duration"]
  else if String.eqb w "hold" then ["temperature"]
  else if String.eqb w "repeat" then ["num_repeats"]
  else [].

(** A step [display_step] can display: not [null] or [undefined], with a
    mode that can be compared, and, when the mode spells a mode word, with
    printable values in the fields of that mode. *)
Definition displayable `{Numeric} (step : value) : bool :=
  match step with
  | VUndefined | VNull => false
  | VObj m =>
      printable (field m "mode") &&
      (if spells_mode_word (field m "mode")
       then forallb (fun f => printable (field m f))
                    (fields_of_mode (text (field m "mode")))
       else true)
  | _ => true
  end.

(** What [display_step] hands back for a step it can display (and
    [undefined] for one it cannot, where it throws). *)
Definition cell_of `{Numeric} (step : value) : value :=
  match display_step step with
  | Normal cell => cell
  | Throw _ => VUndefined
  end.

(** The rows of the steps [m] for the keys [keys], in that order. *)
Definition rows `{Numeric} (m : gmap string value) (keys : list string) : string :=
  foldr (fun key rest => row key (text (cell_of (field m key))) +:+ rest) "" keys.

(** The keys of an object, in the order the map lists them. *)
Definition keys_of `{Numeric} (m : gmap string value) : list string :=
  (map_to_list m).*1.

(** The degree sign, code unit U+00B0. *)
Definition degree : string := String "176" EmptyString.

(** Every step of [m] can be displayed. *)
Definition steps_proper `{Numeric} (m : gmap string value) : Prop :=
  map_Forall (fun _ step => displayable step = true) m.

(** The content of the elements after [$(selector).html(v)]. *)
Definition written `{Numeric} (selector : string) (v : value)
    (d : gmap string value) : gmap string value :=
  match v with
  | VUndefined => d
  | _ => <[selector := v]> d
  end.

(** [$(selector).html(v)] returns. *)
Definition accepted_content `{Host} (v : value) : bool :=
  match v with
  | VArr _ | VObj _ => insertable v
  | _ => true
  end.

(** The page left by the program callback when the response is an object
    whose [steps] parse to the object [m]. *)
Definition rendered `{Numeric} (r m : gmap string value) (st : page) : page :=
  Page (program_id st)
       (Some (field r "scientist"))
       (Some (VObj m))
       (Some (sort (keys_of m)))
       (Some (rows m (sort (keys_of m))))
       (<["#program_details" := VStr (rows m (sort (keys_of m)))]>
          (written "#program_title" (field r "name") (document st)))
       (href st)
       (requests st ++
          [Request ("driver/" +:+ text (field r "driver")) "GET"
                   on_driver true])
       (url_reads st)
       (delete_bound st).

(** *** What the browser shows

    A string given to [.html(...)] is markup.  The script produces markup
    of one shape only: text, in which it writes the degree sign as the
    character reference [&deg;], and for the steps a sequence of rows
    [<tr>...</tr>] of cells [<td>text</td>].  jQuery has the browser parse
    markup that starts with a row in a table body, where each [<tr>] makes
    one row element and each [<td>] one cell; the parser replaces the
    reference [&deg;] by U+00B0 and keeps the characters of text that are
    neither [<], [&] nor a control character.  The reader below follows
    the parser on markup of this shape and gives nothing on any other. *)

(** A character of text that the parser keeps as it is. *)
Definition plain_char (c : ascii) : bool :=
  bool_decide (32 ≤ nat_of_ascii c) && negb (Ascii.eqb c "<")
  && negb (Ascii.eqb c "&").

Definition plain (s : string) : bool :=
  forallb plain_char (list_ascii_of_string s).

(** The tags and the reference the reader knows. *)
Definition marks : list string := ["<tr>"; "</tr>"; "<td>"; "</td>"; "&deg;"].

Inductive place := in_text | between_rows | in_row | in_cell.

(** Where the reader is, the rows and cells it has closed, the text of the
    cell (or of the element) it is in, and the part of a tag or reference
    it has read. *)
Record reader := Reader {
  at_place : place;
  rows_read : list (list string);
  cells_read : list string;
  text_read : string;
  partial : string
}.

(** The reader after a whole tag or reference. *)
Definition read_mark (rd : reader) (mark : string) : option reader :=
  match at_place rd with
  | in_text =>
      if String.eqb mark "&deg;" then
        Some (Reader in_text (rows_read rd) (cells_read rd)
                     (text_read rd +:+ degree) "")
      else None
  | between_rows =>
      if String.eqb mark "<tr>" then
        Some (Reader in_row (rows_read rd) [] "" "")
      else None
  | in_row =>
      if String.eqb mark "<td>" then
        Some (Reader in_cell (rows_read rd) (cells_read rd) "" "")
      else if String.eqb mark "</tr>" then
        Some (Reader between_rows (rows_read rd ++ [cells_read rd]) [] "" "")
      else None
  | in_cell =>
      if String.eqb mark "</td>" then
        Some (Reader in_row (rows_read rd) (cells_read rd ++ [text_read rd])
                     "" "")
      else if String.eqb mark "&deg;" then
        Some (Reader in_cell (rows_read rd) (cells_read rd)
                     (text_read rd +:+ degree) "")
      else None
  end.

(** The reader after one more character. *)
Definition read_char (rd : reader) (c : ascii) : option reader :=
  let seen := partial rd +:+ String c "" in
  if String.eqb (partial rd) "" && plain_char c then
    match at_place rd with
    | in_text | in_cell =>
        Some (Reader (at_place rd) (rows_read rd) (cells_read rd)
                     (text_read rd +:+ String c "") "")
    | _ => None
    end
  else if bool_decide (seen ∈ marks) then read_mark rd seen
  else if existsb (String.prefix seen) marks then
    Some (Reader (at_place rd) (rows_read rd) (cells_read rd)
                 (text_read rd) seen)
  else None.

Fixpoint read_all (rd : option reader) (markup : string) : option reader :=
  match markup with
  | EmptyString => rd
  | String c rest => read_all (rd ≫= fun rd => read_char rd c) rest
  end.

(** The text an element shows after it was given [markup] without tags. *)
Definition read_text (markup : string) : option string :=
  rd ← read_all (Some (Reader in_text [] [] "" "")) markup;
  if String.eqb (partial rd) "" then Some (text_read rd) else None.

(** The rows a table body shows after it was given [markup], each row as
    the texts of its cells. *)
Definition read_rows (markup : string) : option (list (list string)) :=
  rd ← read_all (Some (Reader between_rows [] [] "" "")) markup;
  match at_place rd with
  | between_rows =>
      if String.eqb (partial rd) "" then Some (rows_read rd) else None
  | _ => None
  end.

(** The text the cell of a step shows. *)
Definition cell_text `{Numeric} (step : value) : option string :=
  read_text (text (cell_of step)).

(** The rows the page shows for the steps [m] and the keys [keys]. *)
Definition table `{Numeric} (m : gmap string value) (keys : list string)
  : list (list string) :=
  map (fun key => [key; default "" (cell_text (field m key))]) keys.

(** Keys and cells hold nothing the parser would take for markup. *)
Definition steps_legible `{Numeric} (m : gmap string value) : Prop :=
  map_Forall (fun key step => plain key = true /\ is_Some (cell_text step)) m.

(** What the element [selector] shows: its text, or its rows. *)
Definition shown_text `{Numeric} (st : page) (selector : string)
  : option string :=
  match document st !! selector with
  | Some (VStr markup) => read_text markup
  | _ => None
  end.

Definition shown_rows `{Numeric} (st : page) (selector : string)
  : option (list (list string)) :=
  match document st !! selector with
  | Some (VStr markup) => read_rows markup
  | _ => None
  end.

(** A program response the callback renders to the end: an object whose
    [name] jQuery accepts as content, whose [driver] has a string
    conversion, and whose [steps] convert to a JSON text for an object [m]
    of steps that can all be displayed. *)
Definition proper_response `{Host} (r m : gmap string value) : Prop :=
  accepted_content (field r "name") = true /\
  printable (field r "driver") = true /\
  printable (field r "steps") = true /\
  JSON_parse (text (field r "steps")) = Some (VObj m) /\
  steps_proper m.

(** How the browser writes rows back as markup ([innerHTML]): text is
    written with [&], [<], [>] and the no-break space escaped. *)
Definition escape_char (c : ascii) : string :=
  if Ascii.eqb c "&" then "&amp;"
  else if Ascii.eqb c "<" then "&lt;"
  else if Ascii.eqb c ">" then "&gt;"
  else if Ascii.eqb c "160" then "&nbsp;"
  else String c "".

Definition escape (s : string) : string :=
  String.concat "" (map escape_char (list_ascii_of_string s)).

Definition write_rows (l : list (list string)) : string :=
  String.concat ""
    (map (fun cells =>
            "<tr>" +:+ String.concat ""
                         (map (fun c => "<td>" +:+ escape c +:+ "</td>") cells)
            +:+ "</tr>") l).

(** *** Worked inputs *)

(** JSON text is written here with single quotes, which [quoted] turns
    into the double quotes of JSON. *)
Definition quoted (s : string) : string :=
  string_of_list_ascii
    (map (fun c => if Ascii.eqb c "'" then "034"%char else c)
         (list_ascii_of_string s)).

Definition hold_step `{Numeric} (temperature : value) : value :=
  VObj {[ "mode" := VStr "hold"; "temperature" := temperature ]}.

Definition set_step `{Numeric} (temperature duration : value) : value :=
  VObj {[ "mode" := VStr "set"; "temperature" := temperature;
          "duration" := duration ]}.

(** A program response carrying the given [steps] text. *)
Definition response_with `{Numeric} (steps_text : string) : gmap string value :=
  {[ "name" := VStr "Bake"; "driver" := VStr "7";
     "scientist" := VStr "alice"; "steps" := VStr steps_text ]}.

Definition bake_steps : string :=
  quoted "{'1':{'mode':'hold','temperature':180}}".

Definition bake_response `{Numeric} : gmap string value :=
  response_with bake_steps.

Definition ovenx_response `{Numeric} : gmap string value :=
  {[ "name" := VStr "OvenX" ]}.

(** Inputs evaluated on the reference runtime. *)
Module Sample.
#[local] Existing Instance Reference.numeric.

(** The page opened at [...?id=42]. *)
Definition host : Host := Reference.browser "42".

(** The number a literal denotes. *)
Definition num (literal : string) : value :=
  match Reference.scan_number literal with
  | Some (d, _) => VNum d
  | None => VUndefined
  end.

Definition steps_2_10_1 : string :=
  quoted ("{'2':{'mode':'hold','temperature':50},"
          +:+ "'10':{'mode':'set','temperature':30,'duration':5},"
          +:+ "'1':{'mode':'hold','temperature':20}}").

Definition steps_2_10_1_parsed : gmap string value :=
  {[ "2" := hold_step (num "50");
     "10" := set_step (num "30") (num "5");
     "1" := hold_step (num "20") ]}.


Definition null_steps : string := quoted "{'1':null}".

(** Two steps in "hold" mode with the same temperature and different other
    fields. *)
Definition hold_plain : gmap string value :=
  {[ "mode" := VStr "hold"; "temperature" := num "20" ]}.

Definition hold_with_extras : gmap string value :=
  {[ "mode" := VStr "hold"; "temperature" := num "20";
     "duration" := num "99"; "note" := VStr "overnight" ]}.
End Sample.

(** *** Reachable pages *)

Section reachable.
Context `{Host}.

(** The path of the program this page is about. *)
Definition program_path : string := "program/" +:+ get_id "id".

Definition program_request (waiting : bool) : request :=
  Request program_path "GET" on_program waiting.

Definition is_delete_request (r : request) : Prop :=
  exists waiting, r = Request program_path "DELETE" on_delete waiting.

Definition is_driver_request (r : request) : Prop :=
  exists driver waiting,
    r = Request ("driver/" +:+ driver) "GET" on_driver waiting.

(** An action [keeps] a relation when the page it leaves, whether it
    finished or threw, is related to the page it started from. *)
Definition keeps {A} (R : relation page) (a : action A) : Prop :=
  forall st, R st (a st).1.

(** What the render part of the program callback and the driver callback
    may do: write scratch globals and the DOM, and issue driver
    requests. *)
Definition quiet (st st' : page) : Prop :=
  program_id st' = program_id st /\
  scientist st' = scientist st /\
  href st' = href st /\
  url_reads st' = url_reads st /\
  delete_bound st' = delete_bound st /\
  exists extra, requests st' = requests st ++ extra /\
                Forall is_driver_request extra.

(** What holds of every page reached from [loaded]: the identifier was
    read once and is still the one in [program_id]; the first request is
    the program fetch and every later one is a delete of this program or
    a driver fetch; until the program fetch succeeds nothing has been
    rendered, [scientist] is unset and no driver fetch exists. *)
Definition reachable (st : page) : Prop :=
  program_id st = Some (VStr (get_id "id")) /\
  url_reads st = ["id"] /\
  delete_bound st = true /\
  exists waiting later,
    requests st = program_request waiting :: later /\
    Forall (fun r => is_delete_request r \/ is_driver_request r) later /\
    (waiting = true ->
     scientist st = None /\ document st = ∅ /\ Forall is_delete_request later).

(** The program fetch has not succeeded (yet). *)
Definition program_pending (st : page) : Prop :=
  exists later, requests st = program_request true :: later.

(** The program fetch has succeeded and left [who] in [scientist]. *)
Definition captured (who : value) (st : page) : Prop :=
  scientist st = Some who /\
  exists later, requests st = program_request false :: later.

(** The event reports the success of request [i]. *)
Definition answers (i : nat) (e : event) : bool :=
  match e with
  | Success j _ => Nat.eqb i j
  | Click _ => false
  end.

(** No event of the list reports the success of request [i]. *)
Definition never_succeeds (i : nat) (events : list event) : Prop :=
  Forall (fun e => answers i e = false) events.
End reachable.

(** *** Vocabulary of the further properties *)

(** Everything but the scratch globals [step_data], [step_keys], [steps]
    and the content of [selector] is as before. *)
Definition touches `{Numeric} (selector : string) (st st' : page) : Prop :=
  program_id st' = program_id st /\
  scientist st' = scientist st /\
  href st' = href st /\
  url_reads st' = url_reads st /\
  delete_bound st' = delete_bound st /\
  requests st' = requests st /\
  forall s, s <> selector -> document st' !! s = document st !! s.

(** The page after the first two statements of the program callback that
    act on it: [scientist] assigned and the title given its content. *)
Definition titled_page `{Numeric} (who name : value) (st : page) : page :=
  set_document (written "#program_title" name (document st))
               (set_scientist who st).

(** The page right after the first three statements of the program
    callback that act on it: [scientist] assigned, the title written, the
    driver fetch issued. *)
Definition announced `{Numeric} (who name driver : value) (st : page) : page :=
  set_requests
    (requests st ++ [Request ("driver/" +:+ text driver) "GET" on_driver true])
    (titled_page who name st).

(** How many elements of a list pass a test. *)
Fixpoint count {A} (p : A -> bool) (l : list A) : nat :=
  match l with
  | [] => 0
  | x :: l' => (if p x then 1 else 0) + count p l'
  end.

Definition is_delete (r : request) : bool := String.eqb (method r) "DELETE".

Definition is_driver_fetch (r : request) : bool :=
  match on_success r with
  | on_driver => true
  | _ => false
  end.

Definition is_program_fetch (r : request) : bool :=
  match on_success r with
  | on_program => true
  | _ => false
  end.

(** A click on the delete control with the prompt accepted. *)
Definition accepted `{Numeric} (e : event) : bool :=
  match e with
  | Click true => true
  | _ => false
  end.

(** The program fetch has been answered. *)
Definition settled `{Host} (st : page) : Prop :=
  exists later, requests st = program_request false :: later.

(** Further inputs evaluated on the reference runtime. *)
Module More.
#[local] Existing Instance Reference.numeric.

Definition ramp : gmap string value :=
  {[ "mode" := VStr "linear"; "start_temperature" := Sample.num "20";
     "end_temperature" := Sample.num "80"; "duration" := Sample.num "60" ]}.

Definition hold_without_temperature : gmap string value :=
  {[ "mode" := VStr "hold" ]}.

Definition hold_then_null : string :=
  quoted "{'1':{'mode':'hold','temperature':20},'2':null}".

Definition hold_then_null_parsed : gmap string value :=
  {[ "1" := hold_step (Sample.num "20"); "2" := VNull ]}.

(** A value that has no string conversion, as [JSON.parse] gives it for
    the text [{"toString":1}]. *)
Definition unprintable : value := VObj {[ "toString" := Sample.num "1" ]}.

(** Steps whose one step has such a value for its mode. *)
Definition unprintable_mode_steps : string :=
  quoted "{'1':{'mode':{'toString':1}}}".

(** Program responses with no steps, and with one field changed or
    missing. *)
Definition owned_by (who : value) : gmap string value :=
  <[ "scientist" := who ]> (response_with "{}").

Definition driven_by (driver : value) : gmap string value :=
  <[ "driver" := driver ]> (response_with "{}").

Definition unnamed : gmap string value :=
  {[ "driver" := VStr "7"; "scientist" := VStr "alice";
     "steps" := VStr "{}" ]}.

(** Steps with a key that is markup. *)
Definition markup_key_steps : gmap string value :=
  {[ "</td></tr><tr><td>" := hold_step (Sample.num "20") ]}.
End More.

(** * Properties *)

(** ** The order of [sort] *)

Lemma sort_sorted (l : list string) : StronglySorted String.le (sort l).
Proof. apply StronglySorted_merge_sort; apply _. Qed.

Lemma sort_perm (l : list string) : sort l ≡ₚ l.
Proof. apply merge_sort_Permutation. Qed.

(** Whatever order the keys are collected in, sorting gives one result. *)
Lemma sort_order_irrelevant (l1 l2 : list string) : l1 ≡ₚ l2 -> sort l1 = sort l2.
Proof.
  intros Hp. apply (StronglySorted_unique String.le); try apply sort_sorted.
  by rewrite !sort_perm.
Qed.

Lemma sort_NoDup (l : list string) : NoDup l -> NoDup (sort l).
Proof. intros Hl. by rewrite sort_perm. Qed.

Lemma elem_of_sort (l : list string) (k : string) : k ∈ sort l <-> k ∈ l.
Proof. by rewrite sort_perm. Qed.

(** ** display_step *)

Section display_step_facts.
Context `{Numeric}.

Lemma get_object (m : gmap string value) (k : string) :
  get (VObj m) k = Normal (field m k).
Proof. reflexivity. Qed.

Lemma field_lookup (m : gmap string value) (k : string) (v : value) :
  m !! k = Some v -> field m k = v.
Proof. unfold field. by intros ->. Qed.

Lemma value_array_ind (P : value -> Prop) :
  P VUndefined -> P VNull -> (forall b, P (VBool b)) -> (forall n, P (VNum n)) ->
  (forall s, P (VStr s)) -> (forall l, Forall P l -> P (VArr l)) ->
  (forall m, P (VObj m)) -> forall v, P v.
Proof.
  intros Hu Hn Hb Hnum Hs Ha Ho. fix IH 1.
  intros [| |b|n|s|l|m];
    [exact Hu|exact Hn|apply Hb|apply Hnum|apply Hs| |apply Ho].
  apply Ha. induction l as [|x l IHl]; constructor; [apply IH|apply IHl].
Qed.

Lemma to_string_error (v : value) (e : error) :
  to_string v = Throw e -> e = TypeError.
Proof.
  revert e. induction v as [| |[]|n|s|l IHl|m] using value_array_ind;
    intros e; cbn [to_string]; try discriminate.
  - match goal with |- context [?f l] => set (elements := f) end.
    assert (forall e, elements l = Throw e -> e = TypeError) as Hl.
    { clear e. induction IHl as [|x l Hx _ IH]; intros e; [discriminate|].
      cbn [elements]. fold elements.
      destruct x; cbn [mbind completion_bind];
        try (destruct (elements l) eqn:Hrest; [discriminate|];
             intros [= <-]; by apply IH).
      all: match goal with
           | |- context [to_string ?x] =>
               destruct (to_string x) eqn:Hx'; cbn [mbind completion_bind];
               [destruct (elements l) eqn:Hrest; [discriminate|];
                intros [= <-]; by apply IH
               |intros [= <-]; by apply Hx]
           end. }
    destruct (elements l) eqn:Hparts; cbn [mbind completion_bind];
      [discriminate|]. intros [= <-]. by apply Hl.
  - destruct (m !! "toString"); [by intros [= <-]|discriminate].
Qed.

Lemma printable_text (v : value) :
  printable v = true -> to_string v = Normal (text v).
Proof. unfold printable, text. by destruct (to_string v). Qed.

Lemma unprintable_throws (v : value) :
  printable v = false -> to_string v = Throw TypeError.
Proof.
  unfold printable. destruct (to_string v) eqn:E; [done|]. intros _.
  by rewrite (to_string_error _ _ E).
Qed.

Lemma to_string_normal (v : value) (s : string) :
  to_string v = Normal s -> printable v = true /\ text v = s.
Proof. unfold printable, text. by intros ->. Qed.

Lemma mode_word_distinct (w : string) :
  w ∈ modes -> w <> "" /\ w <> "[object Object]".
Proof.
  unfold modes. intros Hw.
  repeat (apply elem_of_cons in Hw as [->|Hw]; [done|]).
  by apply elem_of_nil in Hw.
Qed.

Lemma spelled_printable (v : value) :
  spells_mode_word v = true -> printable v = true /\ text v ∈ modes.
Proof.
  destruct v as [| |b|n|s|l|m]; try done; cbn [spells_mode_word];
    intros Hv%bool_decide_eq_true; (split; [|done]).
  - reflexivity.
  - unfold printable, text in *. destruct (to_string (VArr l)); [done|].
    by destruct (mode_word_distinct "" Hv).
Qed.

(** A value that spells a mode word is compared through its text. *)
Lemma loose_eq_str_spelled (v : value) (w : string) :
  spells_mode_word v = true ->
  loose_eq_str v w = Normal (String.eqb (text v) w).
Proof.
  intros Hv. destruct (spelled_printable v Hv) as [Hp _].
  destruct v as [| |b|n|s|l|m]; try done.
  cbn [loose_eq_str]. by rewrite (printable_text _ Hp).
Qed.

(** Only strings, and arrays through their printed form, can equal a
    mode word. *)
Lemma loose_eq_str_unspelled (v : value) (w : string) :
  printable v = true -> spells_mode_word v = false -> w ∈ modes ->
  loose_eq_str v w = Normal false.
Proof.
  intros Hp Hv Hw.
  destruct v as [| |b|n|s|l|m]; try done; cbn [loose_eq_str].
  - f_equal. apply String.eqb_neq. intros ->.
    cbn [spells_mode_word] in Hv. by rewrite bool_decide_eq_true_2 in Hv.
  - rewrite (printable_text _ Hp). cbn [mbind completion_bind]. f_equal.
    apply String.eqb_neq. intros <-.
    cbn [spells_mode_word] in Hv. by rewrite bool_decide_eq_true_2 in Hv.
  - rewrite (printable_text _ Hp). cbn [mbind completion_bind]. f_equal.
    apply String.eqb_neq. intros <-.
    unfold printable, text in *. cbn [to_string] in *.
    destruct (m !! "toString"); [done|].
    by destruct (mode_word_distinct _ Hw).
Qed.

(** A mode that cannot be converted cannot be compared. *)
Lemma loose_eq_str_unprintable (v : value) (w : string) :
  printable v = false -> loose_eq_str v w = Throw TypeError.
Proof.
  intros Hp. destruct v as [| |[]|n|s|l|m]; try done; cbn [loose_eq_str];
    by rewrite (unprintable_throws _ Hp).
Qed.

(** The name of an array index starts with a digit, so it is none of the
    script's field names, which start with a letter. *)
Lemma index_key_not_word (i : nat) (c : ascii) (rest : string) :
  57 < nat_of_ascii c -> index_key i <> String c rest.
Proof.
  intros Hc. unfold index_key, NilZero.string_of_uint.
  destruct (Nat.to_uint i); cbn; intros [= <- _]; vm_compute in Hc; lia.
Qed.

Lemma assoc_indexed_word {A} (f : nat -> A -> string * value) (l : list A)
    (c : ascii) (rest : string) :
  57 < nat_of_ascii c ->
  (forall i x, exists j v, f i x = (index_key j, v)) ->
  assoc (String c rest) (imap f l) = None.
Proof.
  intros Hc. revert f. induction l as [|x l IH]; intros f Hf; [done|].
  cbn [imap assoc]. destruct (Hf 0 x) as (j & v & ->).
  destruct (String.eqb_spec (String c rest) (index_key j)) as [Heq|_].
  - by destruct (index_key_not_word j c rest).
  - apply IH. intros i y. apply (Hf (S i) y).
Qed.

(** Reading one of the script's field names from a string or an array
    finds nothing: their own properties are indices. *)
Lemma get_word_of_indexed (v : value) (c : ascii) (rest : string) :
  57 < nat_of_ascii c ->
  match v with VObj _ | VNull | VUndefined => False | _ => True end ->
  get v (String c rest) = Normal VUndefined.
Proof.
  intros Hc Hv. destruct v; try done; cbn [get own_enumerable].
  - by rewrite assoc_indexed_word by eauto.
  - by rewrite assoc_indexed_word by eauto.
Qed.

(** A value that is neither an object nor [null] or [undefined] has no
    mode. *)
Lemma display_step_no_mode (data : value) :
  match data with VObj _ | VNull | VUndefined => False | _ => True end ->
  display_step data = Normal VUndefined.
Proof.
  intros Hd. unfold display_step.
  by rewrite (get_word_of_indexed data "m" "ode") by (vm_compute; (lia || done)).
Qed.

(** A step object whose mode spells a mode word. *)
Lemma display_step_spelled (m : gmap string value) :
  spells_mode_word (field m "mode") = true ->
  display_step (VObj m)
  = if String.eqb (text (field m "mode")) "set" then
      t ← to_string (field m "temperature");
      d ← to_string (field m "duration");
      Normal (VStr ("Set to " +:+ t +:+ "&deg;C for " +:+ d +:+ " seconds"))
    else if String.eqb (text (field m "mode")) "linear" then
      s ← to_string (field m "start_temperature");
      e ← to_string (field m "end_temperature");
      d ← to_string (field m "duration");
      Normal (VStr ("Ramp from " +:+ s +:+ "&deg;C to " +:+ e
                    +:+ "&deg;C over " +:+ d +:+ " seconds."))
    else if String.eqb (text (field m "mode")) "hold" then
      t ← to_string (field m "temperature");
      Normal (VStr ("Hold at " +:+ t +:+ "&deg;C"))
    else if String.eqb (text (field m "mode")) "repeat" then
      n ← to_string (field m "num_repeats");
      Normal (VStr ("Repeat " +:+ n +:+ " times"))
    else Normal VUndefined.
Proof.
  intros Hs. unfold display_step. rewrite !get_object.
  cbn [mbind completion_bind].
  rewrite (loose_eq_str_spelled _ "set" Hs),
    (loose_eq_str_spelled _ "linear" Hs), (loose_eq_str_spelled _ "hold" Hs),
    (loose_eq_str_spelled _ "repeat" Hs).
  reflexivity.
Qed.

(** A step object whose mode has a conversion and spells no mode word. *)
Lemma display_step_unspelled (m : gmap string value) :
  printable (field m "mode") = true ->
  spells_mode_word (field m "mode") = false ->
  display_step (VObj m) = Normal VUndefined.
Proof.
  intros Hp Hs. unfold display_step. rewrite !get_object.
  cbn [mbind completion_bind].
  rewrite (loose_eq_str_unspelled _ "set" Hp Hs),
    (loose_eq_str_unspelled _ "linear" Hp Hs),
    (loose_eq_str_unspelled _ "hold" Hp Hs),
    (loose_eq_str_unspelled _ "repeat" Hp Hs)
    by (apply (bool_decide_unpack _); by vm_compute).
  reflexivity.
Qed.

Lemma display_step_unprintable_mode (m : gmap string value) :
  printable (field m "mode") = false ->
  display_step (VObj m) = Throw TypeError.
Proof.
  intros Hp. unfold display_step. rewrite !get_object.
  cbn [mbind completion_bind].
  by rewrite (loose_eq_str_unprintable _ "set" Hp).
Qed.

Lemma display_step_null : display_step VNull = Throw TypeError.
Proof. reflexivity. Qed.

(** [display_step] returns for a step it can display and throws a
    TypeError for every other. *)
Lemma display_step_outcome (step : value) :
  (displayable step = true -> exists cell, display_step step = Normal cell) /\
  (displayable step = false -> display_step step = Throw TypeError).
Proof.
  destruct step as [| |b|n|s|l|m]; cbn [displayable];
    try (split; [done|by intros _]);
    try (split; [intros _; eexists; by apply display_step_no_mode|done]).
  destruct (printable (field m "mode")) eqn:Hp; cbn [andb];
    [|split; [done|intros _; by apply display_step_unprintable_mode]].
  destruct (spells_mode_word (field m "mode")) eqn:Hs;
    [|split; [intros _; eexists; by apply display_step_unspelled|done]].
  rewrite (display_step_spelled _ Hs).
  destruct (spelled_printable _ Hs) as [_ Hw]. unfold modes in Hw.
  repeat (apply elem_of_cons in Hw as [->|Hw]);
    [| | | |by apply elem_of_nil in Hw];
    cbn [String.eqb Ascii.eqb Bool.eqb fields_of_mode forallb];
    repeat match goal with
           | |- context [printable ?v] =>
               let Hv := fresh "Hv" in
               destruct (printable v) eqn:Hv;
               [rewrite (printable_text _ Hv)
               |rewrite (unprintable_throws _ Hv)];
               cbn [andb mbind completion_bind]
           end;
    (split; [done|by intros _]) || (split; [intros; by eexists|done]).
Qed.

Lemma display_step_total (step : value) :
  displayable step = true -> display_step step = Normal (cell_of step).
Proof.
  intros Hd. destruct (display_step_outcome step) as [Hyes _].
  destruct (Hyes Hd) as [cell Hc]. unfold cell_of. by rewrite Hc.
Qed.

Lemma display_step_throws (step : value) :
  displayable step = false -> display_step step = Throw TypeError.
Proof. apply display_step_outcome. Qed.

Lemma display_step_displayable (step : value) :
  display_step step
  = if displayable step then Normal (cell_of step) else Throw TypeError.
Proof.
  destruct (displayable step) eqn:Hd.
  - by apply display_step_total.
  - by apply display_step_throws.
Qed.

(** What [display_step] returns is a string or [undefined]. *)
Lemma display_step_result (step cell : value) :
  display_step step = Normal cell ->
  cell = VUndefined \/ exists s, cell = VStr s.
Proof.
  destruct step as [| |b|n|s|l|m]; try done;
    try (rewrite display_step_no_mode by done; intros [= <-]; by left).
  destruct (printable (field m "mode")) eqn:Hp;
    [|by rewrite display_step_unprintable_mode].
  destruct (spells_mode_word (field m "mode")) eqn:Hs;
    [|rewrite display_step_unspelled by done; intros [= <-]; by left].
  rewrite (display_step_spelled _ Hs).
  repeat case_match;
    repeat match goal with
           | |- context [to_string ?v] =>
               destruct (to_string v); cbn [mbind completion_bind]
           end;
    intros [= <-]; eauto.
Qed.

Lemma cell_of_printable (step : value) :
  to_string (cell_of step) = Normal (text (cell_of step)).
Proof.
  apply printable_text. unfold cell_of.
  destruct (display_step step) as [cell|e] eqn:Hd; [|done].
  by destruct (display_step_result _ _ Hd) as [->|[s ->]].
Qed.
End display_step_facts.

Section display_step_claims.
Context `{Numeric}.

(** An array is compared through its printed form: a step whose mode is
    the one-element array holding the word is shown as that mode. *)
Example array_mode_is_recognized (t d : string) :
  display_step (VObj {[ "mode" := VArr [VStr "set"];
                        "temperature" := VStr t; "duration" := VStr d ]})
  = Normal (VStr ("Set to " +:+ t +:+ "&deg;C for " +:+ d +:+ " seconds")).
Proof. reflexivity. Qed.

(** C3, as amended.  For every step object with mode "set" whose
    [temperature] and [duration] fields have string conversions [{T}] and
    [{D}], [display_step] returns exactly
    [Set to {T}&deg;C for {D} seconds], the degree sign being written as
    the HTML entity; for a number the conversion is its standard printing
    and nothing more.  Where one of the two fields has no string
    conversion, [display_step] throws a TypeError. *)
Theorem display_step_set (m : gmap string value) :
  m !! "mode" = Some (VStr "set") ->
  (forall t d : string,
     to_string (field m "temperature") = Normal t ->
     to_string (field m "duration") = Normal d ->
     display_step (VObj m)
     = Normal (VStr ("Set to " +:+ t +:+ "&deg;C for " +:+ d +:+ " seconds"))) /\
  (forall t d : number,
     m !! "temperature" = Some (VNum t) -> m !! "duration" = Some (VNum d) ->
     display_step (VObj m)
     = Normal (VStr ("Set to " +:+ number_to_string t +:+ "&deg;C for "
                     +:+ number_to_string d +:+ " seconds"))) /\
  (printable (field m "temperature") = false \/
   printable (field m "duration") = false ->
   display_step (VObj m) = Throw TypeError).
Proof.
  intros Hmode.
  assert (display_step (VObj m)
          = t ← to_string (field m "temperature");
            d ← to_string (field m "duration");
            Normal (VStr ("Set to " +:+ t +:+ "&deg;C for " +:+ d
                          +:+ " seconds"))) as Hd.
  { rewrite display_step_spelled; by rewrite (field_lookup _ _ _ Hmode). }
  split; [|split].
  - intros t d Ht Hd'. by rewrite Hd, Ht, Hd'.
  - intros t d Ht Hd'. rewrite Hd.
    by rewrite (field_lookup _ _ _ Ht), (field_lookup _ _ _ Hd').
  - rewrite Hd. intros [Ht|Hd'].
    + by rewrite (unprintable_throws _ Ht).
    + rewrite (unprintable_throws _ Hd').
      by destruct (to_string (field m "temperature")) eqn:Ht;
        [|rewrite (to_string_error _ _ Ht)].
Qed.

(** C9.  Two step objects with the same recognized mode that agree on the
    fields of that mode are displayed identically, whatever else they
    hold. *)
Theorem display_step_depends_on_mode_fields
    (m1 m2 : gmap string value) (w : string) :
  w ∈ modes ->
  m1 !! "mode" = Some (VStr w) ->
  m2 !! "mode" = Some (VStr w) ->
  Forall (fun f => m1 !! f = m2 !! f) (fields_of_mode w) ->
  display_step (VObj m1) = display_step (VObj m2).
Proof.
  intros Hw H1 H2 Hagree.
  assert (forall f, f ∈ fields_of_mode w -> field m1 f = field m2 f) as Hf.
  { intros f Hin. unfold field. rewrite Forall_forall in Hagree.
    by rewrite (Hagree f Hin). }
  assert (spells_mode_word (VStr w) = true) as Hs
    by (by apply bool_decide_eq_true_2).
  rewrite !display_step_spelled
    by (by rewrite ?(field_lookup _ _ _ H1), ?(field_lookup _ _ _ H2)).
  rewrite (field_lookup _ _ _ H1), (field_lookup _ _ _ H2).
  unfold modes in Hw.
  repeat (apply elem_of_cons in Hw as [->|Hw]);
    [| | | | by apply elem_of_nil in Hw];
    change (text (VStr ?s)) with s;
    cbn [String.eqb Ascii.eqb Bool.eqb];
    repeat (rewrite (Hf _); [|by apply (bool_decide_unpack _)]); reflexivity.
Qed.
End display_step_claims.

(** ** Actions and what they keep *)

Section frames.
Context `{Host}.
Context (R : relation page) `{!Reflexive R} `{!Transitive R}.

Lemma keeps_ret {A} (a : A) : keeps R (mret a).
Proof. intros st. reflexivity. Qed.

Lemma keeps_lift {A} (c : completion A) : keeps R (lift c).
Proof. intros st. reflexivity. Qed.

Lemma keeps_global {A} (var : page -> option A) : keeps R (global var).
Proof. intros st. reflexivity. Qed.

Lemma keeps_modify (f : page -> page) :
  (forall st, R st (f st)) -> keeps R (modify f).
Proof. intros Hf st. apply Hf. Qed.

Lemma keeps_bind {A B} (c : action A) (k : A -> action B) :
  keeps R c -> (forall a, keeps R (k a)) -> keeps R (c ≫= k).
Proof.
  intros Hc Hk st. specialize (Hc st).
  unfold mbind, action_bind. destruct (c st) as [st1 [a|e]]; simpl in *.
  - etrans; [exact Hc|]. apply Hk.
  - exact Hc.
Qed.

Lemma keeps_for_each {A} (l : list A) (body : A -> action unit) :
  (forall x, keeps R (body x)) -> keeps R (for_each l body).
Proof.
  intros Hbody. induction l as [|x l IH]; simpl.
  - apply keeps_ret.
  - apply keeps_bind; [apply Hbody | intros _; apply IH].
Qed.
End frames.

Section quiet_facts.
Context `{Host}.

#[global] Instance quiet_refl : Reflexive quiet.
Proof.
  intros st. repeat split. exists []. by rewrite app_nil_r.
Qed.

#[global] Instance quiet_trans : Transitive quiet.
Proof.
  intros a b c (?&?&?&?&?&e1&He1&?) (?&?&?&?&?&e2&He2&?).
  repeat split; try congruence.
  exists (e1 ++ e2). split; [|by apply Forall_app].
  by rewrite He2, He1, app_assoc.
Qed.

Lemma quiet_same_requests (st st' : page) :
  program_id st' = program_id st -> scientist st' = scientist st ->
  href st' = href st -> url_reads st' = url_reads st ->
  delete_bound st' = delete_bound st -> requests st' = requests st ->
  quiet st st'.
Proof.
  intros. repeat split; try done. exists []. by rewrite app_nil_r.
Qed.

Lemma keeps_html (selector : string) (v : value) : keeps quiet (html selector v).
Proof.
  intros st. destruct v; try (by apply quiet_same_requests);
    unfold html, mbind, action_bind, modify;
    destruct (insertable _); by apply quiet_same_requests.
Qed.

Lemma keeps_http_driver (driver : string) :
  keeps quiet (http ("driver/" +:+ driver) "GET" on_driver).
Proof.
  intros st. repeat split; try done.
  eexists; split; [reflexivity|].
  apply Forall_singleton. by eexists _, _.
Qed.

Lemma driver_success_quiet (response : value) :
  keeps quiet (driver_success response).
Proof.
  unfold driver_success.
  apply (keeps_bind quiet); [apply (keeps_lift quiet) | intros ?].
  apply (keeps_bind quiet); [apply (keeps_lift quiet) | intros ?; apply keeps_html].
Qed.
End quiet_facts.


(** ** The two request callbacks *)

Section callbacks.
Context `{Host}.

Lemma bind_lift_normal {A B} (c : completion A) (a : A) (k : A -> action B)
    (st : page) :
  c = Normal a -> (lift c ≫= k) st = k a st.
Proof. by intros ->. Qed.

Lemma bind_lift_throw {A B} (c : completion A) (e : error) (k : A -> action B)
    (st : page) :
  c = Throw e -> (lift c ≫= k) st = (st, Throw e).
Proof. by intros ->. Qed.

Lemma bind_modify {B} (f : page -> page) (k : unit -> action B) (st : page) :
  (modify f ≫= k) st = k tt (f st).
Proof. reflexivity. Qed.

Lemma bind_global {A B} (var : page -> option A) (a : A) (k : A -> action B)
    (st : page) :
  var st = Some a -> (global var ≫= k) st = k a st.
Proof. unfold mbind, action_bind, global. by intros ->. Qed.

(** What [.html(v)] leaves. *)
Lemma html_written (selector : string) (v : value) (st : page) :
  html selector v st
  = (set_document (written selector v (document st)) st,
     if accepted_content v then Normal tt else Throw TypeError).
Proof.
  destruct v; try reflexivity; [by destruct st| |];
    unfold html, accepted_content, mbind, action_bind, modify;
    by destruct (insertable _).
Qed.

Lemma bind_html {B} (selector : string) (v : value) (k : unit -> action B)
    (st : page) :
  accepted_content v = true ->
  (html selector v ≫= k) st
  = k tt (set_document (written selector v (document st)) st).
Proof.
  intros Hv. unfold mbind at 1, action_bind at 1.
  by rewrite html_written, Hv.
Qed.

Lemma get_throws (v : value) (k : string) (e : error) :
  get v k = Throw e -> e = TypeError /\ (v = VNull \/ v = VUndefined).
Proof. destruct v; simpl; intros [=]; subst; auto. Qed.

Ltac quiet_step :=
  first
    [ apply (keeps_lift quiet)
    | apply (keeps_global quiet)
    | apply keeps_html
    | apply keeps_http_driver
    | apply (keeps_ret quiet)
    | apply (keeps_modify quiet); intros ?; by apply quiet_same_requests ].

Ltac quiet_chain :=
  repeat first
    [ quiet_step
    | apply (keeps_bind quiet); [|intros ?]
    | apply (keeps_for_each quiet); intros ? ].

(** The program callback either stops at its first statement, on a
    response that is [null] or [undefined], or records the scientist and
    from there on only renders and asks for the driver. *)
Lemma program_success_effect (response : value) (st : page) :
  (exists e, get response "scientist" = Throw e /\
             (program_success response st).1 = st) \/
  (exists who, get response "scientist" = Normal who /\
               quiet (set_scientist who st) (program_success response st).1).
Proof.
  unfold program_success.
  destruct (get response "scientist") as [who|e] eqn:Hwho.
  - right. exists who. split; [done|].
    rewrite (bind_lift_normal _ who) by done. rewrite bind_modify.
    generalize (set_scientist who st). quiet_chain.
  - left. exists e. split; [done|].
    by rewrite (bind_lift_throw _ e).
Qed.
End callbacks.

(** ** Rendering the steps *)

Lemma string_app_assoc (a b c : string) : (a +:+ b) +:+ c = a +:+ (b +:+ c).
Proof.
  induction a as [|x a IH]; [done|].
  change (String x ((a +:+ b) +:+ c) = String x (a +:+ (b +:+ c))).
  by rewrite IH.
Qed.

Lemma string_app_nil_r (a : string) : a +:+ "" = a.
Proof.
  induction a as [|x a IH]; [done|].
  change (String x (a +:+ "") = String x a). by rewrite IH.
Qed.

Section rendering.
Context `{Host}.

Lemma keys_of_elem (m : gmap string value) (k : string) :
  k ∈ keys_of m <-> is_Some (m !! k).
Proof.
  unfold keys_of. rewrite list_elem_of_fmap. split.
  - intros ([k' v] & -> & Hin). apply elem_of_map_to_list in Hin. by exists v.
  - intros [v Hv]. exists (k, v). split; [done|]. by apply elem_of_map_to_list.
Qed.

Lemma keys_of_NoDup (m : gmap string value) : NoDup (keys_of m).
Proof. apply NoDup_fst_map_to_list. Qed.

(** The first loop: the keys are pushed in the order visited. *)
Lemma collect_keys (l : list (string * value)) (keys : list string) (st : page) :
  step_keys st = Some keys ->
  for_each l (fun kv =>
                keys ← global step_keys;
                modify (set_step_keys (keys ++ [kv.1]))) st
  = (set_step_keys (keys ++ l.*1) st, Normal tt).
Proof.
  revert keys st. induction l as [|kv l IH]; intros keys st Hkeys.
  - destruct st; simpl in *; subst. by rewrite app_nil_r.
  - cbn [for_each]. unfold mbind at 1, action_bind at 1.
    rewrite (bind_global _ keys) by done. cbn [modify].
    rewrite (IH (keys ++ [kv.1])) by done.
    by rewrite <- app_assoc.
Qed.

(** The second loop: one row is appended per key, as long as every step
    can be displayed. *)
Lemma append_rows (m : gmap string value) (keys : list string)
    (so_far : string) (st : page) :
  steps st = Some so_far ->
  step_data st = Some (VObj m) ->
  (forall k, k ∈ keys -> displayable (field m k) = true) ->
  for_each keys (fun key =>
                   so_far ← global steps;
                   data ← global step_data;
                   step ← lift (get data key);
                   shown ← lift (display_step step);
                   cell ← lift (to_string shown);
                   modify (set_steps (so_far +:+ row key cell))) st
  = (set_steps (so_far +:+ rows m keys) st, Normal tt).
Proof.
  revert so_far st. induction keys as [|k keys IH]; intros so_far st Hs Hd Hok.
  - destruct st; simpl in *; subst. by rewrite string_app_nil_r.
  - cbn [for_each]. unfold mbind at 1, action_bind at 1.
    rewrite (bind_global _ so_far) by done.
    rewrite (bind_global _ (VObj m)) by done.
    rewrite (bind_lift_normal _ (field m k)) by apply get_object.
    rewrite (bind_lift_normal _ (cell_of (field m k)))
      by (apply display_step_total, Hok; by left).
    rewrite (bind_lift_normal _ (text (cell_of (field m k))))
      by apply cell_of_printable.
    cbn [modify].
    rewrite (IH (so_far +:+ row k (text (cell_of (field m k))))); try done.
    + cbn [rows foldr]. by rewrite string_app_assoc.
    + intros k' Hk'. apply Hok. by right.
Qed.

Lemma bind_normal {A B} (c : action A) (k : A -> action B)
    (st st' : page) (a : A) :
  c st = (st', Normal a) -> (c ≫= k) st = k a st'.
Proof. unfold mbind, action_bind. by intros ->. Qed.

Ltac run_action :=
  first [ rewrite bind_modify
        | rewrite bind_html by (reflexivity || eassumption)
        | erewrite bind_lift_normal
            by (reflexivity || (apply printable_text; eassumption))
        | erewrite bind_global by reflexivity ].

Lemma program_success_renders (r m : gmap string value) (st : page) :
  accepted_content (field r "name") = true ->
  printable (field r "driver") = true ->
  printable (field r "steps") = true ->
  JSON_parse (text (field r "steps")) = Some (VObj m) ->
  steps_proper m ->
  program_success (VObj r) st = (rendered r m st, Normal tt).
Proof.
  intros Hname Hdriver Hsteps Hparse Hproper. unfold program_success, http.
  rewrite !get_object.
  repeat run_action. rewrite Hparse. repeat run_action.
  erewrite bind_normal by (by apply (collect_keys _ [])).
  repeat run_action.
  erewrite bind_normal; cycle 1.
  { apply (append_rows m _ ""); try done.
    intros k Hk. apply elem_of_sort, keys_of_elem in Hk as [v Hv].
    unfold field. rewrite Hv. by apply (Hproper k). }
  run_action. by rewrite html_written.
Qed.
End rendering.

(** ** Reachable pages *)

Section invariants.
Context `{Host}.

Lemma loaded_eq :
  loaded = Page (Some (VStr (get_id "id"))) None None None None ∅ None
                [program_request true] ["id"] true.
Proof. reflexivity. Qed.

Lemma loaded_reachable : reachable loaded.
Proof.
  rewrite loaded_eq. repeat split; try done.
  exists true, []. repeat split; try done; constructor.
Qed.

Lemma loaded_pending : program_pending loaded.
Proof. rewrite loaded_eq. by exists []. Qed.

Lemma settle_delete (r : request) : is_delete_request r -> is_delete_request (settle r).
Proof. intros [w ->]. by exists false. Qed.

Lemma settle_driver (r : request) : is_driver_request r -> is_driver_request (settle r).
Proof. intros (d & w & ->). by exists d, false. Qed.

Lemma delete_not_driver (r : request) :
  is_delete_request r -> is_driver_request r -> False.
Proof. intros [w ->] (d & w' & [=]). Qed.

(** The click handler, on a page that knows its program. *)
Lemma delete_click_confirmed (st : page) :
  program_id st = Some (VStr (get_id "id")) ->
  delete_click true st
  = (set_requests
       (requests st ++ [Request program_path "DELETE" on_delete true]) st,
     Normal tt).
Proof.
  intros Hid. unfold delete_click.
  by rewrite (bind_global _ (VStr (get_id "id"))).
Qed.

Lemma delete_click_declined (st : page) : delete_click false st = (st, Normal tt).
Proof. reflexivity. Qed.

(** The delete callback navigates when [scientist] is set and throws, with
    nothing changed, when it is not. *)
Lemma delete_success_effect (response : value) (st : page) :
  (delete_success response st).1
  = match scientist st with
    | Some who =>
        match to_string who with
        | Normal user => set_href ("/program?user=" +:+ user) st
        | Throw _ => st
        end
    | None => st
    end.
Proof.
  unfold delete_success, mbind, action_bind, global, lift.
  destruct (scientist st) as [who|]; [|done]. by destruct (to_string who).
Qed.

Lemma Forall_alter_settle (P : request -> Prop) (l : list request) (i : nat) :
  (forall r, P r -> P (settle r)) -> Forall P l -> Forall P (alter settle i l).
Proof. intros HP Hl. apply Forall_alter; auto. Qed.

(** *** One event *)

Lemma step_success (st : page) (i : nat) (response : value) (r : request) :
  requests st !! i = Some r -> pending r = true ->
  step st (Success i response)
  = (fire (on_success r) response
          (set_requests (alter settle i (requests st)) st)).1.
Proof. intros Hr Hp. unfold step. by rewrite Hr, Hp. Qed.

Lemma step_success_ignored (st : page) (i : nat) (response : value) :
  (forall r, requests st !! i = Some r -> pending r = false) ->
  step st (Success i response) = st.
Proof.
  intros Hr. unfold step. destruct (requests st !! i) as [r|]; [|done].
  by rewrite (Hr r).
Qed.

Lemma step_click (st : page) (confirmed : bool) :
  delete_bound st = true ->
  step st (Click confirmed) = (delete_click confirmed st).1.
Proof. intros Hb. unfold step. by rewrite Hb. Qed.

Lemma reachable_intro (st : page) (waiting : bool) (later : list request) :
  program_id st = Some (VStr (get_id "id")) ->
  url_reads st = ["id"] ->
  delete_bound st = true ->
  requests st = program_request waiting :: later ->
  Forall (fun r => is_delete_request r \/ is_driver_request r) later ->
  (waiting = true ->
   scientist st = None /\ document st = ∅ /\ Forall is_delete_request later) ->
  reachable st.
Proof. intros. repeat split; try done. by exists waiting, later. Qed.

Lemma step_reachable (st : page) (e : event) :
  reachable st -> reachable (step st e).
Proof.
  intros Hst.
  pose proof Hst as
    (Hid & Hreads & Hbound & waiting & later & Hreq & Hlater & Hwait).
  destruct e as [i response|confirmed].
  - destruct (requests st !! i) as [r|] eqn:Hr; cycle 1.
    { rewrite step_success_ignored; [done|]. intros r. by rewrite Hr. }
    destruct (pending r) eqn:Hp; cycle 1.
    { rewrite step_success_ignored; [done|]. intros r'. rewrite Hr. congruence. }
    rewrite (step_success _ _ _ r) by done. rewrite Hreq in Hr |- *.
    destruct i as [|j].
    + injection Hr as <-. cbn in Hp. subst waiting.
      change (alter settle 0 (program_request true :: later))
        with (program_request false :: later).
      cbn [fire on_success program_request].
      destruct (program_success_effect response
                  (set_requests (program_request false :: later) st))
        as [(e & _ & ->)|(who & _ & Hq)].
      * by apply (reachable_intro _ false later).
      * destruct Hq as (Hq1 & Hq2 & Hq3 & Hq4 & Hq5 & extra & Hq6 & Hq7).
        cbn in Hq1, Hq4, Hq5, Hq6.
        apply (reachable_intro _ false (later ++ extra)); try congruence.
        apply Forall_app. split; [done|].
        eapply Forall_impl; [exact Hq7|]. by right.
    + change (alter settle (S j) (program_request waiting :: later))
        with (program_request waiting :: alter settle j later).
      change (later !! j = Some r) in Hr.
      assert (is_delete_request r \/ is_driver_request r) as Hkind
        by (eapply Forall_lookup_1 in Hlater; eauto).
      assert (Forall (fun r => is_delete_request r \/ is_driver_request r)
                     (alter settle j later)) as Hlater'.
      { apply Forall_alter_settle; [|done].
        intros r' [?|?]; [left; by apply settle_delete
                         |right; by apply settle_driver]. }
      assert (waiting = true -> Forall is_delete_request (alter settle j later))
        as Hdel'.
      { intros Hw. destruct (Hwait Hw) as (_ & _ & Hdel).
        apply Forall_alter_settle; auto using settle_delete. }
      destruct Hkind as [[w ->]|Hdrv].
      * cbn [fire on_success]. rewrite delete_success_effect.
        cbn [scientist set_requests].
        destruct (scientist st) as [who|] eqn:Hs; [destruct (to_string who)|];
          apply (reachable_intro _ waiting (alter settle j later)); try done;
          intros Hw; destruct (Hwait Hw) as (? & ? & ?);
          repeat split; auto; congruence.
      * assert (waiting = false) as ->.
        { destruct waiting; [|done]. destruct (Hwait eq_refl) as (_ & _ & Hdel).
          eapply Forall_lookup_1 in Hdel; eauto.
          by destruct (delete_not_driver r). }
        destruct Hdrv as (d & w & ->). cbn [fire on_success].
        destruct (driver_success_quiet response
                    (set_requests
                       (program_request false :: alter settle j later) st))
          as (Hq1 & Hq2 & Hq3 & Hq4 & Hq5 & extra & Hq6 & Hq7).
        cbn in Hq1, Hq4, Hq5, Hq6.
        apply (reachable_intro _ false (alter settle j later ++ extra));
          try congruence.
        apply Forall_app. split; [done|].
        eapply Forall_impl; [exact Hq7|]. by right.
  - rewrite step_click by done. destruct confirmed; [|done].
    rewrite delete_click_confirmed by done. cbn [fst].
    apply (reachable_intro _ waiting
             (later ++ [Request program_path "DELETE" on_delete true]));
      try done.
    + cbn [requests set_requests]. by rewrite Hreq.
    + apply Forall_app. split; [done|]. apply Forall_singleton.
      left. by eexists.
    + intros Hw. destruct (Hwait Hw) as (? & ? & ?). repeat split; try done.
      apply Forall_app. split; [done|]. apply Forall_singleton. by eexists.
Qed.

Lemma foldl_reachable (events : list event) (st : page) :
  reachable st -> reachable (foldl step st events).
Proof.
  revert st. induction events as [|e events IH]; intros st Hst; [done|].
  apply IH. by apply step_reachable.
Qed.

Lemma run_reachable (events : list event) : reachable (run events).
Proof. apply foldl_reachable, loaded_reachable. Qed.

(** *** While the program fetch is pending *)

Lemma step_pending (st : page) (e : event) :
  reachable st -> program_pending st ->
  (forall response, e <> Success 0 response) ->
  program_pending (step st e).
Proof.
  intros (Hid & _ & Hbound & waiting & later' & Hreq' & _ & Hwait)
         [later Hreq] Hne.
  rewrite Hreq in Hreq'. injection Hreq' as <- <-.
  destruct (Hwait eq_refl) as (Hsci & _ & Hdel).
  destruct e as [i response|confirmed].
  - destruct i as [|j]; [by destruct (Hne response)|].
    destruct (requests st !! S j) as [r|] eqn:Hr; cycle 1.
    { rewrite step_success_ignored; [by exists later|].
      intros r. by rewrite Hr. }
    destruct (pending r) eqn:Hp; cycle 1.
    { rewrite step_success_ignored; [by exists later|].
      intros r'. rewrite Hr. congruence. }
    rewrite (step_success _ _ _ r) by done. rewrite Hreq in Hr |- *.
    change (later !! j = Some r) in Hr.
    eapply Forall_lookup_1 in Hdel; eauto. destruct Hdel as [w ->].
    cbn [fire on_success]. rewrite delete_success_effect.
    cbn [scientist set_requests]. rewrite Hsci.
    by exists (alter settle j later).
  - rewrite step_click by done. destruct confirmed; [|by exists later].
    rewrite delete_click_confirmed by done. cbn [fst requests set_requests].
    rewrite Hreq. by eexists.
Qed.

Lemma not_in_cons_success (i : nat) (e : event) (events : list event) :
  never_succeeds i (e :: events) ->
  (forall response, e <> Success i response) /\ never_succeeds i events.
Proof.
  intros Hn. apply Forall_cons in Hn as [He Hn]. split; [|done].
  intros response ->. cbn in He. by rewrite Nat.eqb_refl in He.
Qed.

Lemma foldl_pending (events : list event) (st : page) :
  reachable st -> program_pending st -> never_succeeds 0 events ->
  program_pending (foldl step st events).
Proof.
  revert st. induction events as [|e events IH]; intros st Hst Hp Hn; [done|].
  apply not_in_cons_success in Hn as [He Hn].
  apply IH; [by apply step_reachable|by apply step_pending|done].
Qed.

(** *** After the program fetch has succeeded *)

Lemma fire_requests (cb : callback) (response : value) (st : page) :
  exists extra, requests (fire cb response st).1 = requests st ++ extra.
Proof.
  destruct cb; cbn [fire].
  - destruct (program_success_effect response st)
      as [(e & _ & ->)|(who & _ & Hq)].
    + exists []. by rewrite app_nil_r.
    + destruct Hq as (_ & _ & _ & _ & _ & extra & Hq & _). by exists extra.
  - destruct (driver_success_quiet response st)
      as (_ & _ & _ & _ & _ & extra & Hq & _). by exists extra.
  - rewrite delete_success_effect. exists [].
    rewrite app_nil_r.
    destruct (scientist st) as [who|]; [|done]. by destruct (to_string who).
Qed.


Lemma program_success_captures (st : page) (response who : value) :
  reachable st -> program_pending st ->
  get response "scientist" = Normal who ->
  captured who (step st (Success 0 response)).
Proof.
  intros _ [later Hreq] Hwho.
  rewrite (step_success _ _ _ (program_request true));
    [|by rewrite Hreq|done].
  rewrite Hreq.
  change (alter settle 0 (program_request true :: later))
    with (program_request false :: later).
  cbn [fire on_success program_request].
  destruct (program_success_effect response
              (set_requests (program_request false :: later) st))
    as [(e & He & _)|(who' & Hwho' & Hq)]; [congruence|].
  assert (who' = who) as -> by congruence.
  destruct Hq as (_ & Hq2 & _ & _ & _ & extra & Hq6 & _).
  split; [done|]. by exists (later ++ extra).
Qed.

Lemma step_captured (st : page) (e : event) (who : value) :
  reachable st -> captured who st -> captured who (step st e).
Proof.
  intros Hst [Hsci [later Hreq]].
  pose proof Hst as
    (Hid & _ & Hbound & waiting & later' & Hreq' & Hlater & _).
  rewrite Hreq in Hreq'. injection Hreq' as <- <-.
  destruct e as [i response|confirmed].
  - destruct (requests st !! i) as [r|] eqn:Hr; cycle 1.
    { rewrite step_success_ignored; [by split; eauto|].
      intros r. by rewrite Hr. }
    destruct (pending r) eqn:Hp; cycle 1.
    { rewrite step_success_ignored; [by split; eauto|].
      intros r'. rewrite Hr. congruence. }
    rewrite (step_success _ _ _ r) by done. rewrite Hreq in Hr |- *.
    destruct i as [|j]; [by injection Hr as <-|].
    change (alter settle (S j) (program_request false :: later))
      with (program_request false :: alter settle j later).
    change (later !! j = Some r) in Hr.
    eapply Forall_lookup_1 in Hlater; eauto.
    destruct Hlater as [[w ->]|(d & w & ->)]; cbn [fire on_success].
    + rewrite delete_success_effect. cbn [scientist set_requests].
      rewrite Hsci. destruct (to_string who); (split; [done|]); by eexists.
    + destruct (driver_success_quiet response
                  (set_requests
                     (program_request false :: alter settle j later) st))
        as (_ & Hq2 & _ & _ & _ & extra & Hq6 & _).
      cbn in Hq6. split; [by rewrite Hq2|]. by eexists.
  - rewrite step_click by done. destruct confirmed; [|by split; eauto].
    rewrite delete_click_confirmed by done. cbn [fst].
    split; [done|]. cbn [requests set_requests]. rewrite Hreq. by eexists.
Qed.

Lemma foldl_captured (events : list event) (st : page) (who : value) :
  reachable st -> captured who st ->
  reachable (foldl step st events) /\ captured who (foldl step st events).
Proof.
  revert st. induction events as [|e events IH]; intros st Hst Hc; [done|].
  apply IH; [by apply step_reachable|by apply step_captured].
Qed.

End invariants.

(** ** What the browser reads *)

Lemma read_all_app (rd : option reader) (a b : string) :
  read_all rd (a +:+ b) = read_all (read_all rd a) b.
Proof.
  revert rd. induction a as [|c a IH]; intros rd; [done|].
  change (String c a +:+ b) with (String c (a +:+ b)). cbn [read_all].
  apply IH.
Qed.

Lemma read_all_none (s : string) : read_all None s = None.
Proof. induction s as [|c s IH]; [done|]. exact IH. Qed.

Lemma read_char_plain (pl : place) (R : list (list string)) (C : list string)
    (t : string) (c : ascii) :
  plain_char c = true -> pl = in_text \/ pl = in_cell ->
  read_char (Reader pl R C t "") c
  = Some (Reader pl R C (t +:+ String c "") "").
Proof.
  intros Hc Hpl. unfold read_char. cbn [partial at_place rows_read cells_read text_read].
  rewrite Hc. by destruct Hpl as [-> | ->].
Qed.

(** Text without markup characters is read as it is. *)
Lemma read_all_plain (pl : place) (R : list (list string)) (C : list string)
    (t s : string) :
  plain s = true -> pl = in_text \/ pl = in_cell ->
  read_all (Some (Reader pl R C t "")) s = Some (Reader pl R C (t +:+ s) "").
Proof.
  intros Hs Hpl. revert t. induction s as [|c s IH]; intros t.
  - by rewrite string_app_nil_r.
  - unfold plain in Hs. cbn [list_ascii_of_string forallb] in Hs.
    apply andb_true_iff in Hs as [Hc Hs].
    cbn [read_all mbind option_bind]. rewrite read_char_plain by done.
    rewrite (IH Hs). by rewrite string_app_assoc.
Qed.

(** Text read inside an element is read the same inside a cell. *)
Lemma read_char_cell (rd rd' : reader) (c : ascii)
    (R : list (list string)) (C : list string) :
  at_place rd = in_text -> read_char rd c = Some rd' ->
  at_place rd' = in_text /\
  read_char (Reader in_cell R C (text_read rd) (partial rd)) c
  = Some (Reader in_cell R C (text_read rd') (partial rd')).
Proof.
  intros Hpl. unfold read_char.
  cbn [partial at_place rows_read cells_read text_read]. rewrite Hpl.
  destruct (String.eqb (partial rd) "" && plain_char c);
    [by intros [= <-]|].
  destruct (bool_decide (partial rd +:+ String c "" ∈ marks)).
  - unfold read_mark. cbn [partial at_place rows_read cells_read text_read].
    rewrite Hpl.
    destruct (String.eqb_spec (partial rd +:+ String c "") "&deg;") as [->|];
      [|done].
    by intros [= <-].
  - destruct (existsb _ marks); [|done]. by intros [= <-].
Qed.

Lemma read_all_cell (s : string) (rd rd' : reader)
    (R : list (list string)) (C : list string) :
  at_place rd = in_text -> read_all (Some rd) s = Some rd' ->
  at_place rd' = in_text /\
  read_all (Some (Reader in_cell R C (text_read rd) (partial rd))) s
  = Some (Reader in_cell R C (text_read rd') (partial rd')).
Proof.
  revert rd. induction s as [|c s IH]; intros rd Hpl.
  - by intros [= <-].
  - cbn [read_all mbind option_bind].
    destruct (read_char rd c) as [rd1|] eqn:Hc;
      [|by rewrite read_all_none].
    destruct (read_char_cell rd rd1 c R C Hpl Hc) as [Hpl1 ->].
    by apply IH.
Qed.

Lemma read_text_cell (markup shown : string)
    (R : list (list string)) (C : list string) :
  read_text markup = Some shown ->
  read_all (Some (Reader in_cell R C "" "")) markup
  = Some (Reader in_cell R C shown "").
Proof.
  unfold read_text.
  destruct (read_all (Some (Reader in_text [] [] "" "")) markup)
    as [rd|] eqn:Hrd; [|done].
  cbn [mbind option_bind].
  destruct (String.eqb_spec (partial rd) "") as [Hp|]; [|done].
  intros [= <-].
  destruct (read_all_cell markup (Reader in_text [] [] "" "") rd R C
              eq_refl Hrd) as [_ Hcell].
  cbn [text_read partial] in Hcell. by rewrite Hcell, Hp.
Qed.


(** One row of the script's markup is read as one row of two cells. *)
Lemma read_row (R : list (list string)) (key cell shown : string) :
  plain key = true -> read_text cell = Some shown ->
  read_all (Some (Reader between_rows R [] "" "")) (row key cell)
  = Some (Reader between_rows (R ++ [[key; shown]]) [] "" "").
Proof.
  intros Hkey Hcell. unfold row. rewrite !read_all_app.
  change (read_all (Some (Reader between_rows R [] "" "")) "<tr><td>")
    with (Some (Reader in_cell R [] "" "")).
  rewrite (read_all_plain in_cell) by auto.
  change ("" +:+ key) with key.
  change (read_all (Some (Reader in_cell R [] key "")) "</td><td>")
    with (Some (Reader in_cell R [key] "" "")).
  rewrite (read_text_cell _ _ _ _ Hcell).
  reflexivity.
Qed.

(** ** The rendered table *)

Section render_claims.
Context `{Host}.

Lemma rows_cons (m : gmap string value) (k : string) (keys : list string) :
  rows m (k :: keys) = row k (text (cell_of (field m k))) +:+ rows m keys.
Proof. reflexivity. Qed.

Lemma keys_of_dom (m : gmap string value) (l : list string) :
  NoDup l -> dom m = list_to_set l -> keys_of m ≡ₚ l.
Proof.
  intros Hl Hdom. apply NoDup_Permutation; [apply keys_of_NoDup|done|].
  intros k. by rewrite keys_of_elem, <- elem_of_dom, Hdom, elem_of_list_to_set.
Qed.

(** The markup of the rows is read as the table of the steps. *)
Lemma read_all_rows (m : gmap string value) (keys : list string)
    (R : list (list string)) :
  (forall k, k ∈ keys ->
     plain k = true /\ is_Some (cell_text (field m k))) ->
  read_all (Some (Reader between_rows R [] "" "")) (rows m keys)
  = Some (Reader between_rows (R ++ table m keys) [] "" "").
Proof.
  revert R. induction keys as [|k keys IH]; intros R Hkeys.
  - by rewrite app_nil_r.
  - rewrite rows_cons, read_all_app.
    destruct (Hkeys k) as [Hk [shown Hshown]]; [by left|].
    rewrite (read_row R k _ shown) by done.
    rewrite IH by (intros k' Hk'; apply Hkeys; by right).
    cbn [table map]. rewrite Hshown. cbn [default].
    by rewrite <- app_assoc.
Qed.

Lemma read_rows_table (m : gmap string value) (keys : list string) :
  (forall k, k ∈ keys ->
     plain k = true /\ is_Some (cell_text (field m k))) ->
  read_rows (rows m keys) = Some (table m keys).
Proof.
  intros Hkeys. unfold read_rows. by rewrite (read_all_rows m keys []).
Qed.

Lemma legible_keys (m : gmap string value) (k : string) :
  steps_legible m -> k ∈ sort (keys_of m) ->
  plain k = true /\ is_Some (cell_text (field m k)).
Proof.
  intros Hm Hk. apply elem_of_sort, keys_of_elem in Hk as [v Hv].
  unfold field. rewrite Hv. by apply (Hm k).
Qed.

Lemma proper_response_renders (r m : gmap string value) (st : page) :
  proper_response r m ->
  program_success (VObj r) st = (rendered r m st, Normal tt).
Proof.
  intros (? & ? & ? & ? & ?). by apply program_success_renders.
Qed.

Lemma program_details_rendered (r m : gmap string value) (st : page) :
  proper_response r m ->
  step_keys (program_success (VObj r) st).1 = Some (sort (keys_of m)) /\
  document (program_success (VObj r) st).1 !! "#program_details"
  = Some (VStr (rows m (sort (keys_of m)))).
Proof.
  intros Hr. rewrite (proper_response_renders r m) by done.
  split; [done|]. cbn [fst rendered document]. apply lookup_insert_eq.
Qed.

(** The table the page shows after the program callback. *)
Lemma program_table (r m : gmap string value) (st : page) :
  proper_response r m -> steps_legible m ->
  shown_rows (program_success (VObj r) st).1 "#program_details"
  = Some (table m (sort (keys_of m))).
Proof.
  intros Hr Hm. unfold shown_rows.
  destruct (program_details_rendered r m st Hr) as [_ ->].
  apply read_rows_table. intros k. by apply legible_keys.
Qed.

Lemma table_first_cells (m : gmap string value) (keys : list string) :
  head <$> table m keys = Some <$> keys.
Proof. unfold table. by rewrite <- list_fmap_compose. Qed.

Lemma table_length (m : gmap string value) :
  List.length (table m (sort (keys_of m))) = size m.
Proof.
  unfold table. rewrite length_fmap, sort_perm. unfold keys_of.
  by rewrite length_fmap, length_map_to_list.
Qed.

(** C1.  For every steps mapping the rows written to the steps container
    follow the keys in the default order of [sort], which compares them as
    strings: the sorted keys are a rearrangement of the keys of the
    mapping, each at most its successors in the string order, the markup
    is the rows of these keys one after the other, and, where keys and
    cells hold no markup, the browser reads it as one row per key in that
    order.  In particular a mapping with the keys "2", "10", "1" is
    rendered in the order "1", "10", "2".  The program response is one the
    callback renders to the end. *)
Theorem rows_in_string_order (r m : gmap string value) (st : page) :
  proper_response r m ->
  let st' := (program_success (VObj r) st).1 in
  let keys := sort (keys_of m) in
  step_keys st' = Some keys /\
  document st' !! "#program_details" = Some (VStr (rows m keys)) /\
  StronglySorted String.le keys /\
  keys ≡ₚ keys_of m /\
  (steps_legible m ->
   exists shown, shown_rows st' "#program_details" = Some shown /\
                 head <$> shown = Some <$> keys) /\
  (dom m = {[ "2"; "10"; "1" ]} ->
   keys = ["1"; "10"; "2"] /\
   rows m keys = row "1" (text (cell_of (field m "1")))
                 +:+ row "10" (text (cell_of (field m "10")))
                 +:+ row "2" (text (cell_of (field m "2")))).
Proof.
  intros Hr st' keys.
  destruct (program_details_rendered r m st Hr) as [Hkeys Hdoc].
  split; [done|]. split; [done|].
  split; [apply sort_sorted|]. split; [apply sort_perm|]. split.
  { intros Hm. exists (table m keys).
    split; [by apply program_table|apply table_first_cells]. }
  intros Hdom.
  assert (keys = ["1"; "10"; "2"]) as ->.
  2: { split; [done|]. cbn [rows foldr]. by rewrite string_app_nil_r. }
  subst keys. rewrite (sort_order_irrelevant _ ["2"; "10"; "1"]); [done|].
  apply keys_of_dom; [|by rewrite Hdom].
  by apply (bool_decide_unpack _).
Qed.


(** C7.  With the program response
    [{name: "Bake", driver: "7", scientist: "alice", steps: <JSON text of
    {"1": {"mode": "hold", "temperature": 180}}>}] and the driver response
    [{name: "OvenX"}], the title shows [Bake], the driver line shows
    [Driver: OvenX] (the driver response answering the request
    [GET driver/7] that the program callback issued), and the steps
    container holds exactly one row, which the browser writes back as
    [<tr><td>1</td><td>Hold at 180°C</td></tr>]: the script writes the
    degree sign as the reference [&deg;] and the browser shows U+00B0 for
    it.  The statement holds for every [JSON.parse] that reads the steps
    text as that object and every number model that prints 180 as
    [180]. *)
Theorem bake_page (t : value) :
  JSON_parse bake_steps = Some (VObj {[ "1" := hold_step t ]}) ->
  to_string t = Normal "180" ->
  let st := run [Success 0 (VObj bake_response); Success 1 (VObj ovenx_response)] in
  requests (run [Success 0 (VObj bake_response)]) !! 1
  = Some (Request "driver/7" "GET" on_driver true) /\
  shown_text st "#program_title" = Some "Bake" /\
  shown_text st "#driver_name" = Some "Driver: OvenX" /\
  document st !! "#program_details"
  = Some (VStr "<tr><td>1</td><td>Hold at 180&deg;C</td></tr>") /\
  shown_rows st "#program_details"
  = Some [["1"; "Hold at 180" +:+ degree +:+ "C"]] /\
  write_rows [["1"; "Hold at 180" +:+ degree +:+ "C"]]
  = "<tr><td>1</td><td>Hold at 180" +:+ degree +:+ "C</td></tr>".
Proof.
  intros Hparse Ht st. subst st. unfold run. cbn [foldl].
  rewrite (step_success loaded 0 _ (program_request true)) by done.
  cbn [fire on_success program_request].
  assert (display_step (hold_step t)
          = Normal (VStr ("Hold at " +:+ "180" +:+ "&deg;C"))) as Hstep.
  { unfold hold_step. rewrite display_step_spelled by done.
    change (field _ "temperature") with t. by rewrite Ht. }
  rewrite (proper_response_renders bake_response {[ "1" := hold_step t ]}).
  2: { repeat split; try done.
       intros k v Hkv. apply lookup_singleton_Some in Hkv as [_ <-].
       destruct (display_step_outcome (hold_step t)) as [_ Hno].
       destruct (displayable (hold_step t)); [done|].
       by rewrite Hno in Hstep. }
  cbn [fst].
  rewrite (step_success _ 1 _
             (Request ("driver/" +:+ "7") "GET" on_driver true)) by done.
  cbn [fire on_success].
  assert (rows {[ "1" := hold_step t ]} (sort (keys_of {[ "1" := hold_step t ]}))
          = "<tr><td>1</td><td>Hold at 180&deg;C</td></tr>") as Hrows.
  { unfold keys_of. rewrite map_to_list_singleton.
    change (sort [("1", hold_step t)].*1) with ["1"].
    rewrite rows_cons.
    change (field {[ "1" := hold_step t ]} "1") with (hold_step t).
    unfold cell_of. by rewrite Hstep. }
  unfold rendered. rewrite Hrows.
  repeat split; reflexivity.
Qed.

(** C8, as amended.  For every program response the callback renders to
    the end (which excludes a [null] step) whose step keys and cell texts
    hold no markup, the steps container shows exactly one row per key of
    the steps object: the keys rendered are without repetition and are
    exactly the keys of the object, there are as many rows as keys, and
    the first cell of each row holds its key as it is. *)
Theorem one_row_per_key (r m : gmap string value) (st : page) :
  proper_response r m ->
  steps_legible m ->
  exists keys shown,
    shown_rows (program_success (VObj r) st).1 "#program_details"
    = Some shown /\
    List.length shown = size m /\
    head <$> shown = Some <$> keys /\
    NoDup keys /\
    (forall k, k ∈ keys <-> is_Some (m !! k)) /\
    Forall (fun cells => List.length cells = 2) shown.
Proof.
  intros Hr Hm. exists (sort (keys_of m)), (table m (sort (keys_of m))).
  split; [by apply program_table|]. split; [apply table_length|].
  split; [apply table_first_cells|].
  split; [apply sort_NoDup, keys_of_NoDup|]. split.
  - intros k. rewrite elem_of_sort. apply keys_of_elem.
  - unfold table. by apply Forall_fmap, Forall_true.
Qed.
End render_claims.

(** ** The delete control and the identifier *)

Section page_claims.
Context `{Host}.

(** C5.  A click on the delete control whose prompt is declined leaves the
    page exactly as it was: no request, no navigation, no other change. *)
Theorem declined_delete_is_noop (st : page) :
  step st (Click false) = st /\ delete_click false st = (st, Normal tt).
Proof.
  split; [|done]. unfold step. by destruct (delete_bound st).
Qed.

Lemma run_app (events events' : list event) :
  run (events ++ events') = foldl step (run events) events'.
Proof. unfold run. apply foldl_app. Qed.


Lemma pending_request_list (st : page) :
  reachable st -> program_pending st ->
  document st = ∅ /\
  exists later, requests st = program_request true :: later /\
                Forall is_delete_request later.
Proof.
  intros (_ & _ & _ & waiting & later' & Hreq' & _ & Hwait) [later Hreq].
  rewrite Hreq in Hreq'. injection Hreq' as <- <-.
  destruct (Hwait eq_refl) as (_ & Hdoc & Hdel). eauto.
Qed.

(** C6.  As long as the program fetch has not succeeded, every request
    issued is the program fetch itself or a delete of this program, so no
    driver fetch exists, and nothing has been written to the page; in
    particular the steps container is untouched. *)
Theorem no_program_no_driver (events : list event) :
  never_succeeds 0 events ->
  let st := run events in
  (forall r, r ∈ requests st ->
     (r = program_request true \/ is_delete_request r) /\
     on_success r <> on_driver /\ ~ is_driver_request r) /\
  document st = ∅ /\
  document st !! "#program_details" = None.
Proof.
  intros Hnever st.
  destruct (pending_request_list st) as (Hdoc & later & Hreq & Hdel).
  { apply run_reachable. }
  { apply foldl_pending; [apply loaded_reachable|apply loaded_pending|done]. }
  split; [|by rewrite Hdoc].
  intros r Hr. rewrite Hreq in Hr. apply elem_of_cons in Hr as [->|Hr].
  - repeat split; [by left|done|]. by intros (d & w & [=]).
  - rewrite Forall_forall in Hdel. pose proof (Hdel r Hr) as Hd.
    repeat split; [by right| |by intros ?; eapply delete_not_driver].
    by destruct Hd as [w ->].
Qed.

(** C10.  [get_id] is called once, with "id", when the page becomes ready;
    what it returned stays in [program_id]; the first request is
    [GET program/{program_id}]; whatever has happened since, a click on
    the delete control with the prompt accepted issues one more request,
    [DELETE program/{program_id}] with that same identifier; and every
    DELETE request ever issued has that path. *)
Theorem program_id_read_once_and_reused (events : list event) :
  let st := run events in
  url_reads st = ["id"] /\
  program_id st = Some (VStr (get_id "id")) /\
  (exists waiting,
     requests st !! 0
     = Some (Request ("program/" +:+ get_id "id") "GET" on_program waiting)) /\
  requests (step st (Click true))
  = requests st ++
      [Request ("program/" +:+ get_id "id") "DELETE" on_delete true] /\
  (forall r, r ∈ requests st -> method r = "DELETE" ->
     path r = "program/" +:+ get_id "id").
Proof.
  intros st.
  destruct (run_reachable events)
    as (Hid & Hreads & Hbound & waiting & later & Hreq & Hlater & _).
  fold st in Hid, Hreads, Hbound, Hreq.
  repeat split; try done.
  - exists waiting. by rewrite Hreq.
  - rewrite step_click by done. by rewrite delete_click_confirmed.
  - intros r Hr Hm. rewrite Hreq in Hr. apply elem_of_cons in Hr as [->|Hr].
    + done.
    + rewrite Forall_forall in Hlater.
      destruct (Hlater r Hr) as [[w ->]|(d & w & ->)]; done.
Qed.
End page_claims.

(** * Further properties *)

(** ** display_step on every kind of value *)

Section display_step_more.
Context `{Numeric}.

(** X2.  [display_step] throws a TypeError on [null] and [undefined]; on a
    number, a boolean, a string or an array it finds no mode and returns
    [undefined]; on an object it returns when the mode can be compared and
    the fields of the mode it spells have string conversions, and throws a
    TypeError otherwise.  It throws nothing else, and what it returns is
    a string or [undefined]. *)
Theorem display_step_by_kind (data : value) :
  display_step data
  = match data with
    | VUndefined | VNull => Throw TypeError
    | VObj m =>
        if printable (field m "mode") &&
           (if spells_mode_word (field m "mode")
            then forallb (fun f => printable (field m f))
                         (fields_of_mode (text (field m "mode")))
            else true)
        then Normal (cell_of data)
        else Throw TypeError
    | _ => Normal VUndefined
    end /\
  (forall cell, display_step data = Normal cell ->
                cell = VUndefined \/ exists s, cell = VStr s) /\
  (forall e, display_step data = Throw e -> e = TypeError).
Proof.
  split; [|split].
  - destruct data as [| |b|n|s|l|m]; try reflexivity;
      try (by apply display_step_no_mode).
    exact (display_step_displayable (VObj m)).
  - apply display_step_result.
  - intros e. rewrite display_step_displayable.
    destruct (displayable data); [done|]. by intros [= <-].
Qed.

(** X1.  For a step object, [display_step] returns [undefined] exactly
    when its mode can be compared and does not spell one of the four
    words, and a string exactly when the mode spells one of them and the
    fields of that mode have string conversions. *)
Theorem display_step_undefined_iff (m : gmap string value) :
  (display_step (VObj m) = Normal VUndefined
   <-> printable (field m "mode") = true /\
       spells_mode_word (field m "mode") = false) /\
  ((exists s, display_step (VObj m) = Normal (VStr s))
   <-> spells_mode_word (field m "mode") = true /\
       forallb (fun f => printable (field m f))
               (fields_of_mode (text (field m "mode"))) = true).
Proof.
  destruct (printable (field m "mode")) eqn:Hp.
  2:{ rewrite (display_step_unprintable_mode _ Hp).
      split; split; try (by intros [? ?]); try done.
      intros [Hs _]. apply spelled_printable in Hs as [? _]. congruence. }
  destruct (spells_mode_word (field m "mode")) eqn:Hs.
  2:{ rewrite (display_step_unspelled _ Hp Hs).
      split; split; try done. - by intros [? ?]. - by intros [? ?]. }
  assert (display_step (VObj m)
          = if forallb (fun f => printable (field m f))
                       (fields_of_mode (text (field m "mode")))
            then Normal (cell_of (VObj m)) else Throw TypeError) as Hd.
  { rewrite (display_step_displayable (VObj m)). cbn [displayable].
    by rewrite Hp, Hs. }
  assert ((exists s, display_step (VObj m) = Normal (VStr s))
          \/ display_step (VObj m) = Throw TypeError) as Hshape.
  { rewrite (display_step_spelled _ Hs).
    destruct (spelled_printable _ Hs) as [_ Hw]. unfold modes in Hw.
    repeat (apply elem_of_cons in Hw as [Hw|Hw]);
      [| | | |by apply elem_of_nil in Hw];
      rewrite Hw; cbn [String.eqb Ascii.eqb Bool.eqb];
      repeat match goal with
             | |- context [to_string ?v] =>
                 let E := fresh in
                 destruct (to_string v) eqn:E; cbn [mbind completion_bind];
                 [|rewrite (to_string_error _ _ E)]
             end; eauto. }
  destruct Hshape as [[s Hstr]|Hthrow].
  - rewrite Hstr in *. destruct (forallb _ _); [|done].
    split; split; try done; eauto. by intros [_ ?].
  - rewrite Hthrow in *. destruct (forallb _ _); [done|].
    split; split; try done; by intros [? ?].
Qed.

(** X3.  The three other modes: "linear" gives
    [Ramp from {S}&deg;C to {E}&deg;C over {D} seconds.] (with the full
    stop), "hold" gives [Hold at {T}&deg;C] and "repeat" gives
    [Repeat {N} times], each field inserted through its string
    conversion, which the fields of the mode are assumed to have. *)
Theorem display_step_linear_hold_repeat (m : gmap string value) (w : string) :
  m !! "mode" = Some (VStr w) ->
  Forall (fun f => printable (field m f) = true) (fields_of_mode w) ->
  (w = "linear" ->
   display_step (VObj m)
   = Normal (VStr ("Ramp from " +:+ text (field m "start_temperature")
                   +:+ "&deg;C to " +:+ text (field m "end_temperature")
                   +:+ "&deg;C over " +:+ text (field m "duration")
                   +:+ " seconds."))) /\
  (w = "hold" ->
   display_step (VObj m)
   = Normal (VStr ("Hold at " +:+ text (field m "temperature")
                   +:+ "&deg;C"))) /\
  (w = "repeat" ->
   display_step (VObj m)
   = Normal (VStr ("Repeat " +:+ text (field m "num_repeats")
                   +:+ " times"))).
Proof.
  intros Hmode Hp. rewrite Forall_forall in Hp.
  repeat split; intros ->;
    (rewrite display_step_spelled; rewrite (field_lookup _ _ _ Hmode);
     [|done]);
    change (text (VStr ?s)) with s; cbn [String.eqb Ascii.eqb Bool.eqb];
    repeat (rewrite printable_text
              by (apply Hp; by apply (bool_decide_unpack _)));
    reflexivity.
Qed.

(** X4.  A field the step lacks is printed as the word [undefined]:
    nothing is left out and nothing throws.  A "hold" step without a
    temperature reads [Hold at undefined&deg;C], and so on for the other
    modes. *)
Theorem display_step_missing_fields (m : gmap string value) (w : string) :
  m !! "mode" = Some (VStr w) ->
  Forall (fun f => m !! f = None) (fields_of_mode w) ->
  (w = "set" ->
   display_step (VObj m)
   = Normal (VStr "Set to undefined&deg;C for undefined seconds")) /\
  (w = "linear" ->
   display_step (VObj m)
   = Normal (VStr ("Ramp from undefined&deg;C to undefined&deg;C"
                   +:+ " over undefined seconds."))) /\
  (w = "hold" ->
   display_step (VObj m) = Normal (VStr "Hold at undefined&deg;C")) /\
  (w = "repeat" ->
   display_step (VObj m) = Normal (VStr "Repeat undefined times")).
Proof.
  intros Hmode Hnone. rewrite Forall_forall in Hnone.
  assert (forall f, f ∈ fields_of_mode w -> field m f = VUndefined) as Hf.
  { intros f Hin. unfold field. by rewrite (Hnone f Hin). }
  repeat split; intros ->;
    (rewrite display_step_spelled; rewrite (field_lookup _ _ _ Hmode);
     [|done]);
    change (text (VStr ?s)) with s; cbn [String.eqb Ascii.eqb Bool.eqb];
    repeat (rewrite (Hf _); [|by apply (bool_decide_unpack _)]); reflexivity.
Qed.
End display_step_more.

(** ** The program callback, whatever the steps *)

Section callbacks_more.
Context `{Host}.

#[global] Instance touches_refl (selector : string) : Reflexive (touches selector).
Proof. intros st. by repeat split. Qed.

#[global] Instance touches_trans (selector : string) : Transitive (touches selector).
Proof.
  intros a b c (?&?&?&?&?&?&Hab) (?&?&?&?&?&?&Hbc).
  repeat split; try congruence.
  intros s Hs. by rewrite Hbc, Hab.
Qed.

Lemma touches_html (selector : string) (v : value) :
  keeps (touches selector) (html selector v).
Proof.
  intros st. rewrite html_written. cbn [fst].
  repeat split; try done.
  intros s Hs. destruct v; cbn; by rewrite ?lookup_insert_ne.
Qed.

Ltac touches_chain sel :=
  repeat first
    [ apply (keeps_lift (touches sel))
    | apply (keeps_global (touches sel))
    | apply touches_html
    | apply (keeps_ret (touches sel))
    | apply (keeps_modify (touches sel)); intros ?; by repeat split
    | apply (keeps_bind (touches sel)); [|intros ?]
    | apply (keeps_for_each (touches sel)); intros ? ].

Lemma driver_success_touches (response : value) :
  keeps (touches "#driver_name") (driver_success response).
Proof. unfold driver_success. touches_chain "#driver_name". Qed.

Lemma get_normal_any_key (v who : value) (k k' : string) :
  get v k = Normal who -> exists x, get v k' = Normal x.
Proof. destruct v; cbn; intros [=]; eauto. Qed.

Lemma bind_throw {A B} (c : action A) (k : A -> action B)
    (st st' : page) (e : error) :
  c st = (st', Throw e) -> (c ≫= k) st = (st', Throw e).
Proof. unfold mbind, action_bind. by intros ->. Qed.

(** A response other than [null] and [undefined]: [scientist] is assigned
    and the title written; when jQuery accepts the name and the driver has
    a string conversion, the driver fetch is issued before the steps are
    looked at, and whatever the rest of the callback does, and whether it
    finishes or throws, it writes nothing but the steps container;
    otherwise the callback stops there with a TypeError. *)
Lemma program_success_core (response who : value) (st : page) :
  get response "scientist" = Normal who ->
  exists name driver,
    get response "name" = Normal name /\
    get response "driver" = Normal driver /\
    if accepted_content name && printable driver
    then touches "#program_details" (announced who name driver st)
                 (program_success response st).1
    else program_success response st
         = (titled_page who name st, Throw TypeError).
Proof.
  intros Hwho.
  destruct (get_normal_any_key _ _ _ "name" Hwho) as [name Hname].
  destruct (get_normal_any_key _ _ _ "driver" Hwho) as [driver Hdriver].
  exists name, driver. split; [done|]. split; [done|].
  unfold program_success.
  rewrite (bind_lift_normal _ who) by done. rewrite bind_modify.
  rewrite (bind_lift_normal _ name) by done.
  destruct (accepted_content name) eqn:Hok; cbn [andb]; cycle 1.
  { apply bind_throw. unfold titled_page. by rewrite html_written, Hok. }
  rewrite bind_html by done.
  rewrite (bind_lift_normal _ driver) by done.
  destruct (printable driver) eqn:Hp; cycle 1.
  { by rewrite (bind_lift_throw _ TypeError) by by apply unprintable_throws. }
  rewrite (bind_lift_normal _ (text driver)) by by apply printable_text.
  unfold http at 1. rewrite bind_modify.
  unfold announced, titled_page.
  match goal with
  | |- touches _ ?s (?rest ?s').1 =>
      change s' with s; generalize s; change (keeps (touches "#program_details") rest)
  end.
  touches_chain "#program_details".
Qed.

(** X5.  When the program response is neither [null] nor [undefined], the
    callback assigns [scientist], gives the title the [name] of the
    response unless that is [undefined], and issues exactly one request,
    [GET driver/{driver}], provided jQuery accepted the name and the
    driver has a string conversion, and none otherwise; it does so whether
    or not the steps can be parsed and rendered afterwards; it never
    navigates and never changes [program_id]. *)
Theorem program_success_announces (response who : value) (st : page) :
  get response "scientist" = Normal who ->
  exists name driver,
    get response "name" = Normal name /\
    get response "driver" = Normal driver /\
    scientist (program_success response st).1 = Some who /\
    document (program_success response st).1 !! "#program_title"
    = match name with
      | VUndefined => document st !! "#program_title"
      | _ => Some name
      end /\
    requests (program_success response st).1
    = requests st ++
        (if accepted_content name && printable driver
         then [Request ("driver/" +:+ text driver) "GET" on_driver true]
         else []) /\
    href (program_success response st).1 = href st /\
    program_id (program_success response st).1 = program_id st.
Proof.
  intros Hwho.
  destruct (program_success_core response who st Hwho)
    as (name & driver & Hname & Hdriver & Ht).
  exists name, driver. split; [done|]. split; [done|].
  assert (document (titled_page who name st) !! "#program_title"
          = match name with
            | VUndefined => document st !! "#program_title"
            | _ => Some name
            end) as Htitle.
  { unfold titled_page. cbn [document set_document set_scientist].
    destruct name; cbn [written]; try apply lookup_insert_eq. done. }
  destruct (accepted_content name && printable driver).
  - destruct Ht as (Hid & Hsci & Hhref & _ & _ & Hreq & Hdoc).
    repeat split; try done. by rewrite Hdoc.
  - rewrite Ht. cbn [fst]. rewrite app_nil_r. by repeat split.
Qed.

Ltac run_action :=
  first [ rewrite bind_modify
        | rewrite bind_html by (reflexivity || eassumption)
        | erewrite bind_lift_normal
            by (reflexivity || (apply printable_text; eassumption))
        | erewrite bind_global by reflexivity ].

(** X6.  When the steps text is not JSON, the callback stops with a
    SyntaxError after the title and the driver fetch: the steps container
    and the scratch globals are left as they were.  The response is one
    whose name jQuery accepts and whose driver and steps have string
    conversions. *)
Theorem unparsable_steps (r : gmap string value) (st : page) :
  accepted_content (field r "name") = true ->
  printable (field r "driver") = true ->
  printable (field r "steps") = true ->
  JSON_parse (text (field r "steps")) = None ->
  program_success (VObj r) st
  = (announced (field r "scientist") (field r "name") (field r "driver") st,
     Throw SyntaxError) /\
  document (program_success (VObj r) st).1 !! "#program_details"
  = document st !! "#program_details" /\
  step_data (program_success (VObj r) st).1 = step_data st.
Proof.
  intros Hname Hdriver Hsteps Hparse.
  assert (program_success (VObj r) st
          = (announced (field r "scientist") (field r "name")
                       (field r "driver") st, Throw SyntaxError)) as ->.
  { unfold program_success, http. rewrite !get_object.
    repeat run_action. rewrite Hparse.
    by rewrite (bind_lift_throw _ SyntaxError). }
  split; [done|]. split; [|done].
  cbn [fst announced titled_page document set_requests set_document].
  destruct (field r "name"); cbn [written]; by rewrite ?lookup_insert_ne.
Qed.

(** The second loop stops at the first step that cannot be displayed; the
    rows built so far stay in [steps]. *)
Lemma append_rows_throws (m : gmap string value) (keys : list string)
    (so_far : string) (st : page) :
  steps st = Some so_far ->
  step_data st = Some (VObj m) ->
  Exists (fun k => displayable (field m k) = false) keys ->
  exists partial,
    for_each keys (fun key =>
                     so_far ← global steps;
                     data ← global step_data;
                     step ← lift (get data key);
                     shown ← lift (display_step step);
                     cell ← lift (to_string shown);
                     modify (set_steps (so_far +:+ row key cell))) st
    = (set_steps partial st, Throw TypeError).
Proof.
  revert so_far st. induction keys as [|k keys IH]; intros so_far st Hs Hd Hex.
  { by apply Exists_nil in Hex. }
  cbn [for_each].
  destruct (displayable (field m k)) eqn:Hk.
  - apply Exists_cons in Hex as [Hex|Hex]; [congruence|].
    destruct (IH (so_far +:+ row k (text (cell_of (field m k))))
                 (set_steps (so_far +:+ row k (text (cell_of (field m k)))) st))
      as [partial Hloop]; try done.
    exists partial. erewrite bind_normal; [exact Hloop|].
    rewrite (bind_global _ so_far) by done.
    rewrite (bind_global _ (VObj m)) by done.
    rewrite (bind_lift_normal _ (field m k)) by apply get_object.
    rewrite (bind_lift_normal _ (cell_of (field m k)))
      by by apply display_step_total.
    by rewrite (bind_lift_normal _ (text (cell_of (field m k))))
      by apply cell_of_printable.
  - exists so_far. apply bind_throw.
    rewrite (bind_global _ so_far) by done.
    rewrite (bind_global _ (VObj m)) by done.
    rewrite (bind_lift_normal _ (field m k)) by apply get_object.
    rewrite (bind_lift_throw _ TypeError) by by apply display_step_throws.
    by destruct st; simplify_eq/=.
Qed.

(** X7.  One step that cannot be displayed, a [null] for one, is enough
    for the whole table to be missing: the callback throws a TypeError
    inside the second loop, after the keys were sorted, and the steps
    container keeps whatever it held, however many other steps there are.
    The title and the driver fetch are not affected. *)
Theorem null_step_suppresses_table
    (r m : gmap string value) (k : string) (bad : value) (st : page) :
  accepted_content (field r "name") = true ->
  printable (field r "driver") = true ->
  printable (field r "steps") = true ->
  JSON_parse (text (field r "steps")) = Some (VObj m) ->
  m !! k = Some bad ->
  displayable bad = false ->
  (program_success (VObj r) st).2 = Throw TypeError /\
  document (program_success (VObj r) st).1 !! "#program_details"
  = document st !! "#program_details" /\
  step_keys (program_success (VObj r) st).1 = Some (sort (keys_of m)) /\
  document (program_success (VObj r) st).1 !! "#program_title"
  = document (titled_page (field r "scientist") (field r "name") st)
      !! "#program_title" /\
  requests (program_success (VObj r) st).1
  = requests st ++
      [Request ("driver/" +:+ text (field r "driver")) "GET" on_driver true].
Proof.
  intros Hname Hdriver Hsteps Hparse Hk Hbad.
  unfold program_success, http. rewrite !get_object.
  repeat run_action. rewrite Hparse. repeat run_action.
  erewrite bind_normal by (by apply (collect_keys _ [])).
  repeat run_action.
  edestruct (append_rows_throws m (sort (keys_of m)) "") as [partial Hloop];
    cycle 3.
  - cbn [own_enumerable app]. fold (keys_of m).
    erewrite bind_throw by exact Hloop.
    cbn [fst snd document set_steps set_step_keys set_step_data set_requests
         set_document set_scientist titled_page requests step_keys].
    repeat split; try done.
    destruct (field r "name"); cbn [written]; by rewrite ?lookup_insert_ne.
  - done.
  - done.
  - apply Exists_exists. exists k. split.
    + apply elem_of_sort, keys_of_elem. by eexists.
    + unfold field. by rewrite Hk.
Qed.

(** X8.  When the parsed steps have nothing to enumerate (the empty
    object, [null], a number, a boolean, the empty array or string), the
    callback finishes and sets the steps container to the empty string:
    the table is emptied, not left alone.  The response is one whose name
    jQuery accepts and whose driver and steps have string conversions. *)
Theorem nothing_to_enumerate (r : gmap string value) (data : value) (st : page) :
  accepted_content (field r "name") = true ->
  printable (field r "driver") = true ->
  printable (field r "steps") = true ->
  JSON_parse (text (field r "steps")) = Some data ->
  own_enumerable data = [] ->
  (program_success (VObj r) st).2 = Normal tt /\
  document (program_success (VObj r) st).1 !! "#program_details"
  = Some (VStr "") /\
  shown_rows (program_success (VObj r) st).1 "#program_details" = Some [] /\
  step_keys (program_success (VObj r) st).1 = Some [].
Proof.
  intros Hname Hdriver Hsteps Hparse Hnone.
  unfold shown_rows, program_success, http. rewrite !get_object.
  repeat run_action. rewrite Hparse. repeat run_action.
  rewrite Hnone. cbn [for_each].
  change (mret tt ≫= ?k) with (k tt). cbn beta.
  repeat run_action.
  change (sort []) with (@nil string). cbn [for_each].
  change (mret tt ≫= ?k) with (k tt). cbn beta.
  run_action. rewrite html_written.
  cbn [fst snd accepted_content document set_document written step_keys].
  rewrite lookup_insert_eq. by repeat split.
Qed.
End callbacks_more.

(** ** The request log *)

Lemma count_app {A} (p : A -> bool) (l1 l2 : list A) :
  count p (l1 ++ l2) = count p l1 + count p l2.
Proof. induction l1 as [|x l1 IH]; cbn; [done|]. rewrite IH. lia. Qed.

Lemma count_alter {A} (p : A -> bool) (f : A -> A) (i : nat) (l : list A) :
  (forall x, p (f x) = p x) -> count p (alter f i l) = count p l.
Proof.
  intros Hf. revert i. induction l as [|x l IH]; intros [|i]; cbn; try done.
  - by rewrite Hf.
  - by rewrite IH.
Qed.

Lemma count_none {A} (p : A -> bool) (l : list A) :
  Forall (fun x => p x = false) l -> count p l = 0.
Proof. induction 1 as [|x l Hx _ IH]; cbn; [done|]. by rewrite Hx, IH. Qed.

Section request_log.
Context `{Host}.

Lemma program_success_nullish (response : value) (e : error) (st : page) :
  get response "scientist" = Throw e ->
  (program_success response st).1 = st.
Proof.
  intros He. unfold program_success. by rewrite (bind_lift_throw _ e).
Qed.

(** What one answered request adds to the log: nothing, except that the
    program fetch, answered with a response that is not [null], adds the
    driver fetch. *)
Lemma fire_requests_exact (cb : callback) (response : value) (st : page) :
  requests (fire cb response st).1 = requests st \/
  (cb = on_program /\
   exists driver,
     requests (fire cb response st).1
     = requests st ++ [Request ("driver/" +:+ driver) "GET" on_driver true]).
Proof.
  destruct cb; cbn [fire].
  - destruct (get response "scientist") as [who|e] eqn:Hwho.
    + destruct (program_success_core response who st Hwho)
        as (name & driver & _ & _ & Ht).
      destruct (accepted_content name && printable driver).
      * right. split; [done|].
        destruct Ht as (_ & _ & _ & _ & _ & Hreq & _).
        exists (text driver). by rewrite Hreq.
      * left. by rewrite Ht.
    + left. by rewrite (program_success_nullish _ e).
  - left. by destruct (driver_success_touches response st)
      as (_ & _ & _ & _ & _ & Hreq & _).
  - left. rewrite delete_success_effect.
    destruct (scientist st) as [who|]; [|done]. by destruct (to_string who).
Qed.

(** The log after one event. *)
Lemma step_requests (st : page) (e : event) :
  reachable st ->
  exists base extra,
    requests (step st e) = base ++ extra /\
    (base = requests st \/ exists i, base = alter settle i (requests st)) /\
    (extra = [] \/
     (exists driver,
        extra = [Request ("driver/" +:+ driver) "GET" on_driver true] /\
        program_pending st) \/
     (extra = [Request program_path "DELETE" on_delete true] /\
      accepted e = true)) /\
    (accepted e = true ->
     extra = [Request program_path "DELETE" on_delete true]).
Proof.
  intros Hst.
  pose proof Hst as (Hid & _ & Hbound & waiting & later & Hreq & _ & _).
  destruct e as [i response|confirmed].
  - destruct (requests st !! i) as [r|] eqn:Hr; cycle 1.
    { rewrite step_success_ignored by (intros r; by rewrite Hr).
      exists (requests st), []. rewrite app_nil_r. repeat split; auto. done. }
    destruct (pending r) eqn:Hp; cycle 1.
    { rewrite step_success_ignored by (intros r'; rewrite Hr; congruence).
      exists (requests st), []. rewrite app_nil_r. repeat split; auto. done. }
    rewrite (step_success _ _ _ r) by done.
    destruct (fire_requests_exact (on_success r) response
                (set_requests (alter settle i (requests st)) st))
      as [Hsame|(Hcb & driver & Hadd)].
    + exists (alter settle i (requests st)), []. rewrite app_nil_r.
      repeat split; eauto. done.
    + exists (alter settle i (requests st)),
        [Request ("driver/" +:+ driver) "GET" on_driver true].
      repeat split; eauto; [|done].
      right. left. exists driver. split; [done|].
      exists later. rewrite Hreq in Hr |- *. destruct i as [|j].
      * cbn in Hr. injection Hr as <-. cbn in Hp. by subst waiting.
      * pose proof Hst as (_ & _ & _ & w' & l' & Hreq' & Hl' & _).
        rewrite Hreq in Hreq'. injection Hreq' as <- <-.
        change (later !! j = Some r) in Hr.
        eapply Forall_lookup_1 in Hl'; eauto.
        destruct Hl' as [[w ->]|(d & w & ->)]; done.
  - rewrite step_click by done. destruct confirmed.
    + rewrite delete_click_confirmed by done.
      exists (requests st), [Request program_path "DELETE" on_delete true].
      repeat split; auto.
    + exists (requests st), []. rewrite app_nil_r. repeat split; auto. done.
Qed.
End request_log.

Section history.
Context `{Host}.

Lemma settle_is_delete (r : request) : is_delete (settle r) = is_delete r.
Proof. done. Qed.

Lemma settle_is_driver_fetch (r : request) :
  is_driver_fetch (settle r) = is_driver_fetch r.
Proof. done. Qed.

Lemma step_count_deletes (st : page) (e : event) :
  reachable st ->
  count is_delete (requests (step st e))
  = count is_delete (requests st) + (if accepted e then 1 else 0).
Proof.
  intros Hst.
  destruct (step_requests st e Hst) as (base & extra & -> & Hbase & Hextra & Hacc).
  rewrite count_app.
  assert (count is_delete base = count is_delete (requests st)) as ->.
  { destruct Hbase as [->|[i ->]]; [done|].
    apply count_alter, settle_is_delete. }
  f_equal. destruct (accepted e) eqn:He.
  - by rewrite Hacc.
  - destruct Hextra as [->|[(driver & -> & _)|[_ ?]]]; [done|done|congruence].
Qed.

(** X10.  Every accepted click issues one DELETE request and nothing else
    does: in every history the number of DELETE requests is the number of
    accepted clicks. *)
Theorem one_delete_per_accepted_click (events : list event) :
  count is_delete (requests (run events)) = count accepted events.
Proof.
  unfold run.
  assert (forall st, reachable st ->
            count is_delete (requests (foldl step st events))
            = count is_delete (requests st) + count accepted events) as Hgen.
  { induction events as [|e events IH]; intros st Hst; cbn [foldl count].
    - lia.
    - rewrite IH by by apply step_reachable.
      rewrite step_count_deletes by done. lia. }
  rewrite Hgen by apply loaded_reachable. by rewrite loaded_eq.
Qed.

Lemma reachable_counts (st : page) :
  reachable st ->
  count is_program_fetch (requests st) = 1 /\
  (program_pending st -> count is_driver_fetch (requests st) = 0).
Proof.
  intros (_ & _ & _ & waiting & later & Hreq & Hlater & Hwait).
  rewrite Hreq. split.
  - cbn. rewrite count_none; [done|].
    eapply Forall_impl; [exact Hlater|].
    by intros r [[w ->]|(d & w & ->)].
  - intros [later' Hreq']. rewrite Hreq in Hreq'. injection Hreq' as -> <-.
    destruct (Hwait eq_refl) as (_ & _ & Hdel).
    cbn. rewrite count_none; [done|].
    eapply Forall_impl; [exact Hdel|]. by intros r [w ->].
Qed.

Lemma step_count_drivers (st : page) (e : event) :
  reachable st ->
  count is_driver_fetch (requests st) <= 1 ->
  count is_driver_fetch (requests (step st e)) <= 1.
Proof.
  intros Hst Hone.
  destruct (step_requests st e Hst) as (base & extra & -> & Hbase & Hextra & _).
  rewrite count_app.
  assert (count is_driver_fetch base = count is_driver_fetch (requests st)) as ->.
  { destruct Hbase as [->|[i ->]]; [done|].
    apply count_alter, settle_is_driver_fetch. }
  destruct Hextra as [->|[(driver & -> & Hpend)|[-> _]]]; cbn; [lia| |lia].
  destruct (reachable_counts st Hst) as [_ Hzero]. rewrite Hzero by done. lia.
Qed.

(** X13.  In every history the program is fetched exactly once and the
    driver at most once, and not at all while the program fetch is
    pending. *)
Theorem one_program_fetch_one_driver_fetch (events : list event) :
  count is_program_fetch (requests (run events)) = 1 /\
  count is_driver_fetch (requests (run events)) <= 1 /\
  (program_pending (run events) ->
   count is_driver_fetch (requests (run events)) = 0).
Proof.
  assert (forall st, reachable st ->
            count is_driver_fetch (requests st) <= 1 ->
            count is_driver_fetch (requests (foldl step st events)) <= 1) as Hgen.
  { induction events as [|e events IH]; intros st Hst Hone; [done|].
    cbn [foldl]. apply IH; [by apply step_reachable|by apply step_count_drivers]. }
  destruct (reachable_counts (run events) (run_reachable events)) as [Hp Hd].
  split; [done|]. split; [|done].
  apply Hgen; [apply loaded_reachable|]. rewrite loaded_eq. cbn. lia.
Qed.

(** ** Navigation *)

(** The location changes only when a pending DELETE request of this page
    succeeds while [scientist] is set, and then to the owner's list. *)
Lemma step_href (st : page) (e : event) :
  reachable st ->
  href (step st e) = href st /\ scientist (step st e) = scientist st \/
  (href (step st e) = href st /\ program_pending st /\
   exists response, e = Success 0 response) \/
  (exists i response who user,
     e = Success i response /\
     requests st !! i = Some (Request program_path "DELETE" on_delete true) /\
     scientist st = Some who /\
     scientist (step st e) = Some who /\
     to_string who = Normal user /\
     href (step st e) = Some ("/program?user=" +:+ user)).
Proof.
  intros Hst.
  pose proof Hst as (Hid & _ & Hbound & waiting & later & Hreq & Hlater & _).
  destruct e as [i response|confirmed].
  - destruct (requests st !! i) as [r|] eqn:Hr; cycle 1.
    { rewrite step_success_ignored by (intros r; by rewrite Hr). by left. }
    destruct (pending r) eqn:Hp; cycle 1.
    { rewrite step_success_ignored by (intros r'; rewrite Hr; congruence).
      by left. }
    rewrite (step_success _ _ _ r) by done.
    rewrite Hreq in Hr. destruct i as [|j].
    + cbn in Hr. injection Hr as <-. cbn in Hp. subst waiting.
      right. left. split; [|split; [by exists later|by exists response]].
      cbn [fire on_success program_request].
      destruct (program_success_effect response
                  (set_requests (alter settle 0 (requests st)) st))
        as [(e & _ & ->)|(who & _ & Hq)]; [done|].
      by destruct Hq as (_ & _ & -> & _).
    + change (later !! j = Some r) in Hr.
      eapply Forall_lookup_1 in Hlater; eauto.
      destruct Hlater as [[w ->]|(d & w & ->)]; cbn [fire on_success].
      * cbn in Hp. subst w. rewrite delete_success_effect.
        cbn [scientist set_requests].
        destruct (scientist st) as [who|] eqn:Hsci; [|by left].
        destruct (to_string who) as [user|] eqn:Huser; [|by left].
        right. right. exists (S j), response, who, user.
        repeat split; try done. by rewrite Hreq.
      * left. by destruct (driver_success_touches response
                             (set_requests (alter settle (S j) (requests st)) st))
          as (_ & -> & -> & _).
  - left. rewrite step_click by done. destruct confirmed; [|done].
    by rewrite delete_click_confirmed.
Qed.

(** X11.  A delete that is confirmed and answered before the program has
    loaded does not navigate: as long as the program fetch has not
    succeeded, [scientist] is not defined, the location is as it was, and
    the delete callback, whatever response it is given, throws a
    ReferenceError and leaves the page as it is. *)
Theorem delete_before_load_does_not_navigate (events : list event) :
  never_succeeds 0 events ->
  href (run events) = None /\ scientist (run events) = None /\
  forall response,
    delete_success response (run events) = (run events, Throw ReferenceError).
Proof.
  intros Hnever.
  assert (href (run events) = None /\ scientist (run events) = None)
    as [Hhref Hsci]; cycle 1.
  { split; [done|]. split; [done|]. intros response.
    unfold delete_success, mbind, action_bind, global. by rewrite Hsci. }
  unfold run.
  assert (forall st, reachable st -> program_pending st ->
            href (foldl step st events) = href st /\
            scientist (foldl step st events) = None) as Hgen.
  { induction events as [|e events IH]; intros st Hst Hp.
    - split; [done|].
      destruct Hst as (_ & _ & _ & w & l & Hreq & _ & Hw). destruct Hp as [l' Hl'].
      rewrite Hl' in Hreq. injection Hreq as <- _. by destruct (Hw eq_refl).
    - apply not_in_cons_success in Hnever as [He Hnever]. cbn [foldl].
      destruct (IH Hnever (step st e)) as [Hh Hs];
        [by apply step_reachable|by apply step_pending|].
      split; [|done]. rewrite Hh.
      destruct (step_href st e Hst)
        as [[? _]|[(? & _)|(i & resp & who & user & _ & _ & Hsci & _)]];
        try done.
      destruct Hst as (_ & _ & _ & w & l & Hreq & _ & Hw). destruct Hp as [l' Hl'].
      rewrite Hl' in Hreq. injection Hreq as <- _.
      destruct (Hw eq_refl) as (? & _). congruence. }
  apply Hgen; [apply loaded_reachable|apply loaded_pending].
Qed.

Lemma reachable_pending_or_settled (st : page) :
  reachable st -> program_pending st \/ settled st.
Proof.
  intros (_ & _ & _ & [|] & later & Hreq & _); [left|right]; by exists later.
Qed.

Lemma pending_not_settled (st : page) : program_pending st -> settled st -> False.
Proof. intros [l Hl] [l' Hl']. rewrite Hl in Hl'. by injection Hl'. Qed.

(** Once answered, the program fetch stays answered. *)
Lemma step_settled (st : page) (e : event) :
  reachable st -> settled st -> settled (step st e).
Proof.
  intros Hst [later Hreq].
  destruct (step_requests st e Hst) as (base & extra & Hreq' & Hbase & _).
  unfold settled. rewrite Hreq'. rewrite Hreq in Hbase.
  destruct Hbase as [->|[[|j] ->]]; by eexists.
Qed.

Lemma step_destination (st : page) (e : event) :
  reachable st ->
  (program_pending st -> href st = None) ->
  (href st = None \/
   exists who user, scientist st = Some who /\
                    to_string who = Normal user /\
                    href st = Some ("/program?user=" +:+ user)) ->
  (program_pending (step st e) -> href (step st e) = None) /\
  (href (step st e) = None \/
   exists who user, scientist (step st e) = Some who /\
                    to_string who = Normal user /\
                    href (step st e) = Some ("/program?user=" +:+ user)).
Proof.
  intros Hst Hpend Hdest.
  assert (program_pending (step st e) -> program_pending st) as Hback.
  { intros Hp'. destruct (reachable_pending_or_settled st Hst) as [?|Hs]; [done|].
    destruct (pending_not_settled (step st e)); [done|by apply step_settled]. }
  destruct (step_href st e Hst)
    as [[Hh Hs]|[(Hh & Hp & resp & ->)
                |(i & resp & who & user & -> & Hr & Hsci & Hs' & Hu & Hh)]].
  - rewrite Hh, Hs. split; [|done]. intros Hp'. by apply Hpend, Hback.
  - rewrite Hh, (Hpend Hp). split; [done|by left].
  - split; [|right; by exists who, user].
    intros Hp'. apply Hback in Hp'.
    destruct Hst as (_ & _ & _ & w & l & Hreq & _ & Hw). destruct Hp' as [l' Hl'].
    rewrite Hl' in Hreq. injection Hreq as <- _.
    destruct (Hw eq_refl) as (? & _). congruence.
Qed.

(** X14.  The page never navigates anywhere but to the owner's program
    list: in every history the location is either untouched or
    [/program?user={scientist}] for the scientist the page holds, written
    through its string conversion. *)
Theorem navigates_only_to_owner_list (events : list event) :
  href (run events) = None \/
  exists who user, scientist (run events) = Some who /\
                   to_string who = Normal user /\
                   href (run events) = Some ("/program?user=" +:+ user).
Proof.
  unfold run.
  assert (forall st, reachable st ->
            (program_pending st -> href st = None) ->
            (href st = None \/
             exists who user, scientist st = Some who /\
                              to_string who = Normal user /\
                              href st = Some ("/program?user=" +:+ user)) ->
            href (foldl step st events) = None \/
            exists who user, scientist (foldl step st events) = Some who /\
                             to_string who = Normal user /\
                             href (foldl step st events)
                             = Some ("/program?user=" +:+ user)) as Hgen.
  { induction events as [|e events IH]; intros st Hst Hp Hd; [done|].
    cbn [foldl]. destruct (step_destination st e Hst Hp Hd) as [Hp' Hd'].
    apply IH; [by apply step_reachable|done|done]. }
  apply Hgen; [apply loaded_reachable|done|by left].
Qed.

Lemma count_positive {A} (p : A -> bool) (l : list A) (i : nat) (x : A) :
  l !! i = Some x -> p x = true -> 0 < count p l.
Proof.
  revert i. induction l as [|y l IH]; intros [|i] Hi Hx; try done.
  - cbn in Hi. injection Hi as ->. cbn. rewrite Hx. lia.
  - cbn. specialize (IH i Hi Hx). lia.
Qed.

Lemma count_zero_Forall {A} (p : A -> bool) (l : list A) :
  count p l = 0 -> Forall (fun x => p x = false) l.
Proof.
  induction l as [|x l IH]; cbn; intros Hc; constructor.
  - destruct (p x); [lia|done].
  - apply IH. destruct (p x); lia.
Qed.

(** X9.  Without an accepted click nothing is deleted and the page stays
    where it is: in every history with no accepted click, whatever
    responses arrive, no DELETE request is issued and the location is
    never assigned. *)
Theorem no_accepted_click_no_delete (events : list event) :
  Forall (fun e => accepted e = false) events ->
  Forall (fun r => is_delete r = false) (requests (run events)) /\
  href (run events) = None.
Proof.
  intros Hnone. unfold run.
  assert (forall st, reachable st ->
            count is_delete (requests st) = 0 -> href st = None ->
            count is_delete (requests (foldl step st events)) = 0 /\
            href (foldl step st events) = None) as Hgen.
  { induction Hnone as [|e events He _ IH]; intros st Hst Hzero Hh; [done|].
    cbn [foldl]. apply IH; [by apply step_reachable| |].
    - rewrite step_count_deletes by done. rewrite He. lia.
    - destruct (step_href st e Hst)
        as [[-> _]|[(-> & _)|(i & resp & who & user & _ & Hr & _)]]; try done.
      pose proof (count_positive is_delete _ _ _ Hr eq_refl). lia. }
  destruct (Hgen loaded) as [Hzero Hh];
    [apply loaded_reachable|by rewrite loaded_eq|by rewrite loaded_eq|].
  split; [by apply count_zero_Forall|done].
Qed.

(** ** What is rendered stays rendered *)

Lemma pending_success_settles (st : page) (response : value) :
  reachable st -> program_pending st -> settled (step st (Success 0 response)).
Proof.
  intros Hst [later Hreq].
  destruct (step_requests st (Success 0 response) Hst)
    as (base & extra & Hreq' & _).
  rewrite (step_success _ _ _ (program_request true)) in Hreq' |- *;
    [|by rewrite Hreq|done|by rewrite Hreq|done].
  destruct (fire_requests on_program response
              (set_requests (alter settle 0 (requests st)) st)) as [more Hmore].
  unfold settled. cbn [on_success program_request]. rewrite Hmore.
  cbn [requests set_requests]. rewrite Hreq. by eexists.
Qed.

(** After the program fetch was answered, an event writes to the page, if
    anywhere, to the driver line. *)
Lemma step_settled_document (st : page) (e : event) (s : string) :
  reachable st -> settled st -> s <> "#driver_name" ->
  document (step st e) !! s = document st !! s.
Proof.
  intros Hst [later Hreq] Hs.
  pose proof Hst as (_ & _ & Hbound & w & later' & Hreq' & Hlater & _).
  rewrite Hreq in Hreq'. injection Hreq' as <- <-.
  destruct e as [i response|confirmed].
  - destruct (requests st !! i) as [r|] eqn:Hr; cycle 1.
    { by rewrite step_success_ignored by (intros r; by rewrite Hr). }
    destruct (pending r) eqn:Hp; cycle 1.
    { by rewrite step_success_ignored by (intros r'; rewrite Hr; congruence). }
    rewrite (step_success _ _ _ r) by done.
    rewrite Hreq in Hr. destruct i as [|j]; [by injection Hr as <-|].
    change (later !! j = Some r) in Hr.
    eapply Forall_lookup_1 in Hlater; eauto.
    destruct Hlater as [[w ->]|(d & w & ->)]; cbn [fire on_success].
    + rewrite delete_success_effect. cbn [scientist set_requests].
      destruct (scientist st) as [who|]; [|done]. by destruct (to_string who).
    + destruct (driver_success_touches response
                  (set_requests (alter settle (S j) (requests st)) st))
        as (_ & _ & _ & _ & _ & _ & Hdoc).
      by rewrite Hdoc.
  - rewrite step_click by exact Hbound. destruct confirmed; [|done].
    rewrite delete_click_confirmed; [done|].
    by destruct Hst as (? & _).
Qed.

(** X12.  The title and the steps table are written once: after the
    program fetch has been answered, no later event (a driver response, a
    click, a delete response, a repeated program response) changes any
    part of the page other than the driver line. *)
Theorem rendered_once
    (before after : list event) (response : value) (s : string) :
  never_succeeds 0 before ->
  s <> "#driver_name" ->
  document (run (before ++ Success 0 response :: after)) !! s
  = document (run (before ++ [Success 0 response])) !! s.
Proof.
  intros Hbefore Hs.
  assert (forall st, reachable st -> settled st ->
            document (foldl step st after) !! s = document st !! s) as Hgen.
  { induction after as [|e after IH]; intros st Hst Hset; [done|].
    cbn [foldl]. rewrite IH; [by apply step_settled_document
                             |by apply step_reachable|by apply step_settled]. }
  rewrite !run_app. cbn [foldl]. apply Hgen.
  - apply step_reachable, run_reachable.
  - apply pending_success_settles; [apply run_reachable|].
    apply foldl_pending; [apply loaded_reachable|apply loaded_pending|done].
Qed.

(** X15.  The order of the table depends on the keys alone, not on the
    order in which [for..in] hands them over: [sort] gives the same
    array for every arrangement of the same keys, and sorting again
    changes nothing. *)
Theorem table_order_ignores_enumeration (keys keys' : list string) :
  keys ≡ₚ keys' ->
  sort keys = sort keys' /\ sort (sort keys) = sort keys.
Proof.
  intros Hp. split; [by apply sort_order_irrelevant|].
  apply sort_order_irrelevant, sort_perm.
Qed.
End history.

(** ** The owner *)

Section owner.
Context `{Host}.

(** X16.  [scientist] is assigned once, by the program callback, and is
    never assigned again: after the program fetch was answered with a
    response whose [scientist] is [who], every later page holds [who]. *)
Theorem scientist_assigned_once
    (before after : list event) (response who : value) :
  never_succeeds 0 before ->
  get response "scientist" = Normal who ->
  scientist (run (before ++ Success 0 response :: after)) = Some who.
Proof.
  intros Hbefore Hwho. rewrite run_app. cbn [foldl].
  apply foldl_captured.
  - apply step_reachable, run_reachable.
  - apply program_success_captures; [apply run_reachable| |done].
    apply foldl_pending; [apply loaded_reachable|apply loaded_pending|done].
Qed.
End owner.

(** ** What the cell of a step shows *)

(** Inside an element the reader stays where it is, and text already read
    is carried along unchanged. *)
Lemma read_char_in_text (R : list (list string)) (C : list string)
    (t p : string) (c : ascii) (rd' : reader) :
  read_char (Reader in_text R C t p) c = Some rd' ->
  exists t' p',
    rd' = Reader in_text R C t' p' /\
    forall before,
      read_char (Reader in_text R C (before +:+ t) p) c
      = Some (Reader in_text R C (before +:+ t') p').
Proof.
  unfold read_char. cbn [partial at_place rows_read cells_read text_read].
  destruct (String.eqb p "" && plain_char c).
  { intros [= <-]. eexists _, _. split; [done|]. intros before.
    by rewrite string_app_assoc. }
  destruct (bool_decide (p +:+ String c "" ∈ marks)).
  - unfold read_mark. cbn [partial at_place rows_read cells_read text_read].
    destruct (String.eqb _ "&deg;"); [|done].
    intros [= <-]. eexists _, _. split; [done|]. intros before.
    by rewrite string_app_assoc.
  - destruct (existsb _ marks); [|done].
    intros [= <-]. by eexists _, _.
Qed.

Lemma read_all_in_text (s : string) (R : list (list string)) (C : list string)
    (t p : string) (rd' : reader) :
  read_all (Some (Reader in_text R C t p)) s = Some rd' ->
  exists t' p',
    rd' = Reader in_text R C t' p' /\
    forall before,
      read_all (Some (Reader in_text R C (before +:+ t) p)) s
      = Some (Reader in_text R C (before +:+ t') p').
Proof.
  revert t p. induction s as [|c s IH]; intros t p.
  - intros [= <-]. by eexists _, _.
  - cbn [read_all mbind option_bind].
    destruct (read_char (Reader in_text R C t p) c) as [rd1|] eqn:Hc;
      [|by rewrite read_all_none].
    destruct (read_char_in_text _ _ _ _ _ _ Hc) as (t1 & p1 & -> & Hc1).
    intros Hs. destruct (IH _ _ Hs) as (t' & p' & -> & Hs').
    exists t', p'. split; [done|]. intros before. by rewrite Hc1.
Qed.

(** Reading two pieces of text one after the other. *)
Lemma read_text_app (a b a' b' : string) :
  read_text a = Some a' -> read_text b = Some b' ->
  read_text (a +:+ b) = Some (a' +:+ b').
Proof.
  unfold read_text. rewrite read_all_app.
  destruct (read_all (Some (Reader in_text [] [] "" "")) a) as [rda|] eqn:Ha;
    [|done].
  destruct (read_all_in_text _ _ _ _ _ _ Ha) as (ta & pa & -> & _).
  cbn [mbind option_bind partial text_read].
  destruct (String.eqb_spec pa "") as [->|]; [|done].
  intros [= ->].
  destruct (read_all (Some (Reader in_text [] [] "" "")) b) as [rdb|] eqn:Hb;
    [|done].
  destruct (read_all_in_text _ _ _ _ _ _ Hb) as (tb & pb & -> & Hb').
  cbn [mbind option_bind partial text_read].
  destruct (String.eqb_spec pb "") as [->|]; [|done].
  intros [= ->].
  specialize (Hb' a'). rewrite string_app_nil_r in Hb'. rewrite Hb'.
  cbn [mbind option_bind partial text_read]. done.
Qed.

Lemma read_text_pieces (a b a' b' shown : string) :
  read_text a = Some a' -> shown = a' +:+ b' -> read_text b = Some b' ->
  read_text (a +:+ b) = Some shown.
Proof. intros Ha -> Hb. by apply read_text_app. Qed.

Section shown_cells.
Context `{Numeric}.

End shown_cells.

(** * Worked examples on the reference runtime *)

#[local] Existing Instance Reference.numeric.
#[local] Existing Instance Sample.host.

(** An equation between closed terms, checked by evaluating both sides. *)
Ltac evaluate :=
  lazymatch goal with
  | |- ?a = ?b => exact (@eq_refl _ b <: a = b)
  end.

Ltac decide_it := apply (bool_decide_unpack _); vm_compute; exact I.

(** The steps of the specification's ordering example, parsed. *)
Example parse_2_10_1 :
  JSON_parse Sample.steps_2_10_1 = Some (VObj Sample.steps_2_10_1_parsed).
Proof. evaluate. Qed.

(** A response is rendered to the end; keys and cells hold no markup. *)
Ltac proper_it :=
  unfold proper_response; repeat split; try evaluate;
  unfold steps_proper; decide_it.

Ltac legible_it := unfold steps_legible; decide_it.

(** C1 at the steps [{"2": hold 50, "10": set 30 for 5, "1": hold 20}]. *)
Lemma rows_in_string_order_witness :
  proper_response (response_with Sample.steps_2_10_1)
                  Sample.steps_2_10_1_parsed /\
  step_keys (program_success (VObj (response_with Sample.steps_2_10_1)) loaded).1
  = Some ["1"; "10"; "2"] /\
  document (program_success (VObj (response_with Sample.steps_2_10_1)) loaded).1
    !! "#program_details"
  = Some (VStr ("<tr><td>1</td><td>Hold at 20&deg;C</td></tr>"
                +:+ "<tr><td>10</td><td>Set to 30&deg;C for 5 seconds</td></tr>"
                +:+ "<tr><td>2</td><td>Hold at 50&deg;C</td></tr>")) /\
  exists shown,
    shown_rows
      (program_success (VObj (response_with Sample.steps_2_10_1)) loaded).1
      "#program_details" = Some shown /\
    head <$> shown = [Some "1"; Some "10"; Some "2"].
Proof.
  assert (proper_response (response_with Sample.steps_2_10_1)
                          Sample.steps_2_10_1_parsed) as Hproper by proper_it.
  assert (steps_legible Sample.steps_2_10_1_parsed) as Hlegible by legible_it.
  split; [exact Hproper|].
  destruct (rows_in_string_order _ _ loaded Hproper)
    as (Hkeys & Hdoc & _ & _ & Hshown & Hex).
  destruct Hex as [Hk Hr]; [evaluate|].
  destruct (Hshown Hlegible) as (shown & Hs & Hhead).
  rewrite Hk in Hkeys, Hdoc, Hhead. split; [exact Hkeys|].
  split; [rewrite Hdoc; evaluate|].
  exists shown. split; [exact Hs|exact Hhead].
Defined.



(** C3 at the step [{"mode": "set", "temperature": 30, "duration": 5}]. *)
Lemma display_step_set_witness :
  ({[ "mode" := VStr "set"; "temperature" := Sample.num "30";
      "duration" := Sample.num "5" ]} : gmap string value) !! "mode"
  = Some (VStr "set") /\
  display_step (set_step (Sample.num "30") (Sample.num "5"))
  = Normal (VStr "Set to 30&deg;C for 5 seconds").
Proof.
  assert (({[ "mode" := VStr "set"; "temperature" := Sample.num "30";
              "duration" := Sample.num "5" ]} : gmap string value) !! "mode"
          = Some (VStr "set")) as Hmode by evaluate.
  split; [exact Hmode|].
  destruct (display_step_set _ Hmode) as [Hd _].
  apply (Hd "30" "5"); evaluate.
Defined.

(** The claim of C3 fails: the string returned holds the entity [&deg;],
    five characters, where the claim has the degree sign. *)
Lemma display_step_set_not_degree_sign :
  display_step (set_step (Sample.num "30") (Sample.num "5"))
  = Normal (VStr "Set to 30&deg;C for 5 seconds") /\
  display_step (set_step (Sample.num "30") (Sample.num "5"))
  <> Normal (VStr ("Set to 30" +:+ degree +:+ "C for 5 seconds")).
Proof.
  assert (display_step (set_step (Sample.num "30") (Sample.num "5"))
          = Normal (VStr "Set to 30&deg;C for 5 seconds")) as -> by evaluate.
  split; [reflexivity|]. vm_compute. discriminate.
Qed.

(** A "set" step whose temperature has no string conversion is not
    displayed at all. *)
Example display_step_set_unprintable :
  display_step (set_step More.unprintable (Sample.num "5")) = Throw TypeError.
Proof. evaluate. Qed.


(** A scientist without a string conversion: the delete is issued and
    answered, and the page stays where it is. *)
Example unprintable_scientist_does_not_navigate :
  requests (run [Success 0 (VObj (More.owned_by More.unprintable));
                 Click true; Success 2 VNull]) !! 2
  = Some (Request "program/42" "DELETE" on_delete false) /\
  href (run [Success 0 (VObj (More.owned_by More.unprintable));
             Click true; Success 2 VNull]) = None.
Proof. split; evaluate. Qed.

(** C6 on a history in which only the delete control is used. *)
Lemma no_program_no_driver_witness :
  never_succeeds 0 [Click true; Success 1 VNull; Click false] /\
  document (run [Click true; Success 1 VNull; Click false]) = ∅ /\
  document (run [Click true; Success 1 VNull; Click false])
    !! "#program_details" = None.
Proof.
  assert (never_succeeds 0 [Click true; Success 1 VNull; Click false])
    as Hnever by (by repeat constructor).
  split; [exact Hnever|].
  exact (proj2 (no_program_no_driver _ Hnever)).
Defined.

(** C7 on the reference runtime. *)
Lemma bake_page_witness :
  JSON_parse bake_steps
  = Some (VObj {[ "1" := hold_step (Sample.num "180") ]}) /\
  to_string (Sample.num "180") = Normal "180" /\
  shown_text (run [Success 0 (VObj bake_response);
                   Success 1 (VObj ovenx_response)]) "#program_title"
  = Some "Bake" /\
  shown_text (run [Success 0 (VObj bake_response);
                   Success 1 (VObj ovenx_response)]) "#driver_name"
  = Some "Driver: OvenX" /\
  shown_rows (run [Success 0 (VObj bake_response);
                   Success 1 (VObj ovenx_response)]) "#program_details"
  = Some [["1"; "Hold at 180" +:+ degree +:+ "C"]].
Proof.
  assert (JSON_parse bake_steps
          = Some (VObj {[ "1" := hold_step (Sample.num "180") ]})) as Hparse
    by evaluate.
  assert (to_string (Sample.num "180") = Normal "180") as Hprint by evaluate.
  split; [exact Hparse|]. split; [exact Hprint|].
  destruct (bake_page (Sample.num "180") Hparse Hprint)
    as (_ & Htitle & Hdriver & _ & Hrows & _).
  split; [exact Htitle|]. split; [exact Hdriver|exact Hrows].
Defined.

(** C8 at the three steps of the ordering example. *)
Lemma one_row_per_key_witness :
  proper_response (response_with Sample.steps_2_10_1)
                  Sample.steps_2_10_1_parsed /\
  steps_legible Sample.steps_2_10_1_parsed /\
  exists keys shown,
    shown_rows
      (program_success (VObj (response_with Sample.steps_2_10_1)) loaded).1
      "#program_details" = Some shown /\
    List.length shown = 3 /\
    head <$> shown = Some <$> keys /\
    NoDup keys.
Proof.
  assert (proper_response (response_with Sample.steps_2_10_1)
                          Sample.steps_2_10_1_parsed) as Hproper by proper_it.
  assert (steps_legible Sample.steps_2_10_1_parsed) as Hlegible by legible_it.
  split; [exact Hproper|]. split; [exact Hlegible|].
  destruct (one_row_per_key _ _ loaded Hproper Hlegible)
    as (keys & shown & Hs & Hlen & Hhead & Hnodup & _).
  exists keys, shown. split; [exact Hs|]. split; [|by split].
  rewrite Hlen. evaluate.
Defined.

(** The claim of C8 fails: the steps [{"1": null}] parse to an object with
    one key, [display_step] throws on the [null] step, and nothing is
    written to the steps container, which shows no row. *)
Lemma null_step_renders_nothing :
  JSON_parse Sample.null_steps = Some (VObj {[ "1" := VNull ]}) /\
  display_step VNull = Throw TypeError /\
  document (run [Success 0 (VObj (response_with Sample.null_steps))])
    !! "#program_details" = None /\
  shown_rows (run [Success 0 (VObj (response_with Sample.null_steps))])
             "#program_details" = None.
Proof. repeat split; evaluate. Qed.

(** A step whose mode has no string conversion has the same effect. *)
Example unprintable_mode_suppresses_table :
  JSON_parse More.unprintable_mode_steps
  = Some (VObj {[ "1" := VObj {[ "mode" := More.unprintable ]} ]}) /\
  display_step (VObj {[ "mode" := More.unprintable ]}) = Throw TypeError /\
  (program_success (VObj (response_with More.unprintable_mode_steps)) loaded).2
  = Throw TypeError /\
  document (run [Success 0 (VObj (response_with More.unprintable_mode_steps))])
    !! "#program_details" = None.
Proof. repeat split; evaluate. Qed.

(** A key that is markup makes two rows: the condition on the keys in C8
    is needed. *)
Example markup_key_two_rows :
  size More.markup_key_steps = 1 /\
  read_rows (rows More.markup_key_steps (sort (keys_of More.markup_key_steps)))
  = Some [[""]; [""; "Hold at 20" +:+ degree +:+ "C"]].
Proof. split; evaluate. Qed.

(** C9 at two "hold" steps of 20 degrees, one of them with two more
    fields. *)
Lemma display_step_depends_on_mode_fields_witness :
  display_step (VObj Sample.hold_plain)
  = display_step (VObj Sample.hold_with_extras).
Proof.
  apply (display_step_depends_on_mode_fields _ _ "hold").
  - decide_it.
  - evaluate.
  - evaluate.
  - by repeat constructor.
Defined.

(** ** Further worked examples *)

(** X3 at a ramp from 20 to 80 degrees in 60 seconds. *)
Lemma display_step_linear_witness :
  More.ramp !! "mode" = Some (VStr "linear") /\
  Forall (fun f => printable (field More.ramp f) = true)
         (fields_of_mode "linear") /\
  display_step (VObj More.ramp)
  = Normal (VStr "Ramp from 20&deg;C to 80&deg;C over 60 seconds.").
Proof.
  assert (More.ramp !! "mode" = Some (VStr "linear")) as Hmode by evaluate.
  assert (Forall (fun f => printable (field More.ramp f) = true)
                 (fields_of_mode "linear")) as Hfields
    by (repeat constructor; evaluate).
  split; [exact Hmode|]. split; [exact Hfields|].
  destruct (display_step_linear_hold_repeat More.ramp "linear" Hmode Hfields)
    as (Hlinear & _).
  rewrite (Hlinear eq_refl). evaluate.
Defined.


(** X4 at a "hold" step with no temperature. *)
Lemma display_step_missing_fields_witness :
  More.hold_without_temperature !! "mode" = Some (VStr "hold") /\
  Forall (fun f => More.hold_without_temperature !! f = None)
         (fields_of_mode "hold") /\
  display_step (VObj More.hold_without_temperature)
  = Normal (VStr "Hold at undefined&deg;C").
Proof.
  assert (More.hold_without_temperature !! "mode" = Some (VStr "hold"))
    as Hmode by evaluate.
  assert (Forall (fun f => More.hold_without_temperature !! f = None)
                 (fields_of_mode "hold")) as Hnone by (by repeat constructor).
  split; [exact Hmode|]. split; [exact Hnone|].
  destruct (display_step_missing_fields _ "hold" Hmode Hnone)
    as (_ & _ & Hhold & _).
  exact (Hhold eq_refl).
Defined.

(** X5 at a response whose steps are not JSON: the driver is asked for all
    the same. *)
Lemma program_success_announces_witness :
  get (VObj (response_with "oops")) "scientist" = Normal (VStr "alice") /\
  scientist (program_success (VObj (response_with "oops")) loaded).1
  = Some (VStr "alice") /\
  document (program_success (VObj (response_with "oops")) loaded).1
    !! "#program_title" = Some (VStr "Bake") /\
  requests (program_success (VObj (response_with "oops")) loaded).1
  = requests loaded ++ [Request "driver/7" "GET" on_driver true].
Proof.
  split; [reflexivity|].
  destruct (program_success_announces (VObj (response_with "oops"))
              (VStr "alice") loaded eq_refl)
    as (name & driver & Hname & Hdriver & Hsci & Htitle & Hreq & _).
  injection Hname as <-. injection Hdriver as <-.
  split; [exact Hsci|]. split; [exact Htitle|exact Hreq].
Defined.

(** A response without a name leaves the title alone, and one whose driver
    has no string conversion asks for no driver and never looks at the
    steps. *)
Example undefined_name_writes_nothing :
  document (run [Success 0 (VObj More.unnamed)]) !! "#program_title" = None /\
  document (run [Success 0 (VObj More.unnamed)]) !! "#program_details"
  = Some (VStr "").
Proof. split; evaluate. Qed.

Example unprintable_driver_no_request :
  requests (run [Success 0 (VObj (More.driven_by More.unprintable))])
  = [Request "program/42" "GET" on_program false] /\
  step_data (run [Success 0 (VObj (More.driven_by More.unprintable))]) = None /\
  document (run [Success 0 (VObj (More.driven_by More.unprintable))])
    !! "#program_details" = None.
Proof. repeat split; evaluate. Qed.

(** X6 at the same response. *)
Lemma unparsable_steps_witness :
  accepted_content (field (response_with "oops") "name") = true /\
  printable (field (response_with "oops") "driver") = true /\
  printable (field (response_with "oops") "steps") = true /\
  JSON_parse (text (field (response_with "oops") "steps")) = None /\
  (program_success (VObj (response_with "oops")) loaded).2 = Throw SyntaxError /\
  document (program_success (VObj (response_with "oops")) loaded).1
    !! "#program_details" = None.
Proof.
  assert (JSON_parse (text (field (response_with "oops") "steps")) = None)
    as Hparse by evaluate.
  split; [reflexivity|]. split; [reflexivity|]. split; [reflexivity|].
  split; [exact Hparse|].
  destruct (unparsable_steps (response_with "oops") loaded
              eq_refl eq_refl eq_refl Hparse)
    as (Heq & Hdoc & _).
  split; [by rewrite Heq|]. rewrite Hdoc. evaluate.
Defined.

(** X7 at the steps [{"1": hold 20, "2": null}]: the first row is built
    and then dropped with the rest. *)
Lemma null_step_suppresses_table_witness :
  JSON_parse (text (field (response_with More.hold_then_null) "steps"))
  = Some (VObj More.hold_then_null_parsed) /\
  More.hold_then_null_parsed !! "2" = Some VNull /\
  displayable VNull = false /\
  (program_success (VObj (response_with More.hold_then_null)) loaded).2
  = Throw TypeError /\
  document (program_success (VObj (response_with More.hold_then_null)) loaded).1
    !! "#program_details" = None /\
  steps (program_success (VObj (response_with More.hold_then_null)) loaded).1
  = Some "<tr><td>1</td><td>Hold at 20&deg;C</td></tr>".
Proof.
  assert (JSON_parse (text (field (response_with More.hold_then_null) "steps"))
          = Some (VObj More.hold_then_null_parsed)) as Hparse by evaluate.
  assert (More.hold_then_null_parsed !! "2" = Some VNull) as Hnull by evaluate.
  split; [exact Hparse|]. split; [exact Hnull|]. split; [reflexivity|].
  destruct (null_step_suppresses_table
              (response_with More.hold_then_null) More.hold_then_null_parsed
              "2" VNull loaded eq_refl eq_refl eq_refl Hparse Hnull eq_refl)
    as (Hthrow & Hdoc & _).
  split; [exact Hthrow|]. split; [|evaluate].
  rewrite Hdoc. evaluate.
Defined.

(** X8 at the steps [{}]. *)
Lemma nothing_to_enumerate_witness :
  JSON_parse (text (field (response_with "{}") "steps")) = Some (VObj ∅) /\
  own_enumerable (VObj ∅) = [] /\
  document (program_success (VObj (response_with "{}")) loaded).1
    !! "#program_details" = Some (VStr "").
Proof.
  assert (JSON_parse (text (field (response_with "{}") "steps"))
          = Some (VObj ∅)) as Hparse by evaluate.
  assert (own_enumerable (VObj ∅) = []) as Hnone by evaluate.
  split; [exact Hparse|]. split; [exact Hnone|].
  exact (proj1 (proj2 (nothing_to_enumerate (response_with "{}") (VObj ∅)
                         loaded eq_refl eq_refl eq_refl Hparse Hnone))).
Defined.

(** X9 on a history in which the page loads and the prompt is declined
    twice. *)
Lemma no_accepted_click_witness :
  Forall (fun e => accepted e = false)
         [Click false; Success 0 (VObj bake_response);
          Success 1 (VObj ovenx_response); Click false] /\
  href (run [Click false; Success 0 (VObj bake_response);
             Success 1 (VObj ovenx_response); Click false]) = None.
Proof.
  assert (Forall (fun e => accepted e = false)
            [Click false; Success 0 (VObj bake_response);
             Success 1 (VObj ovenx_response); Click false]) as Hnone
    by (by repeat constructor).
  split; [exact Hnone|].
  exact (proj2 (no_accepted_click_no_delete _ Hnone)).
Defined.

(** X11 on a history in which the delete is confirmed and answered while
    the program fetch is still pending. *)
Lemma delete_before_load_witness :
  never_succeeds 0 [Click true; Success 1 VNull] /\
  requests (run [Click true; Success 1 VNull]) !! 1
  = Some (Request "program/42" "DELETE" on_delete false) /\
  href (run [Click true; Success 1 VNull]) = None /\
  delete_success VNull (run [Click true])
  = (run [Click true], Throw ReferenceError).
Proof.
  assert (never_succeeds 0 [Click true; Success 1 VNull]) as Hnever
    by (by repeat constructor).
  split; [exact Hnever|]. split; [evaluate|].
  split; [exact (proj1 (delete_before_load_does_not_navigate _ Hnever))|].
  apply (delete_before_load_does_not_navigate [Click true]).
  by repeat constructor.
Defined.

(** X12: a second, different program response does not replace the
    title. *)
Lemma rendered_once_witness :
  never_succeeds 0 [Click false] /\
  document (run ([Click false] ++ Success 0 (VObj bake_response)
                   :: [Success 0 (VObj (response_with "{}")); Click true]))
    !! "#program_title"
  = Some (VStr "Bake").
Proof.
  assert (never_succeeds 0 [Click false]) as Hnever by (by repeat constructor).
  split; [exact Hnever|].
  rewrite (rendered_once [Click false]
             [Success 0 (VObj (response_with "{}")); Click true]
             (VObj bake_response) "#program_title" Hnever) by done.
  evaluate.
Defined.

(** X15 at the keys of the ordering example, collected in two orders. *)
Lemma table_order_witness :
  ["2"; "10"; "1"] ≡ₚ ["1"; "2"; "10"] /\
  sort ["2"; "10"; "1"] = sort ["1"; "2"; "10"].
Proof.
  assert (["2"; "10"; "1"] ≡ₚ ["1"; "2"; "10"]) as Hperm by decide_it.
  split; [exact Hperm|].
  exact (proj1 (table_order_ignores_enumeration _ _ Hperm)).
Defined.

(** X16 on a history with a second program response naming someone
    else. *)
Lemma scientist_assigned_once_witness :
  never_succeeds 0 [Click false] /\
  get (VObj bake_response) "scientist" = Normal (VStr "alice") /\
  scientist (run ([Click false] ++ Success 0 (VObj bake_response)
                    :: [Success 0 (VObj {[ "scientist" := VStr "bob" ]})]))
  = Some (VStr "alice").
Proof.
  assert (never_succeeds 0 [Click false]) as Hnever by (by repeat constructor).
  split; [exact Hnever|]. split; [reflexivity|].
  exact (scientist_assigned_once [Click false]
           [Success 0 (VObj {[ "scientist" := VStr "bob" ]})]
           (VObj bake_response) (VStr "alice") Hnever eq_refl).
Defined.
